(** * pz_fileio.File: a shallow embedding and its checked properties

    The Python class [File] (src/pz_fileio/File.py) wraps one path and an
    optional open text stream.  Every method delegates to the operating
    system or to a codec of the standard library, so the development has
    three layers:

    - the Python values, exceptions and the path functions of [os.path];
    - a model of the file system (directory entries, i-nodes, open streams,
      the diagnostic output) and of the codecs [json] and [csv];
    - the methods of [File], written in a state-and-exception monad so that
      each definition can be read next to the method it embeds.

    Text is carried as [string], the UTF-8 bytes of the Python text: the
    utf-8 codec is the identity on it.  The platform is POSIX (the line
    separator is a line feed, the path separator a slash). *)

From Stdlib Require Import ZArith Ascii String List DecimalString DecimalFacts DecimalPos DecimalZ.
From stdpp Require Import gmap strings list.

Local Open Scope string_scope.

(** ** Python values, exceptions, outcomes *)

Module Py.

(** The values a caller can pass to a method.  A [float] is carried by the
    text [float.__repr__] gives for it; [PyObject cls] is an object of
    another class (an [io.BytesIO], say), known by its class name only: it
    is not iterable, not path-like and has no JSON form.  A [dict] keeps
    its items in insertion order. *)
#[warnings="-register-all"]
Inductive pyval : Type :=
| PyNone
| PyBool (b : bool)
| PyInt (z : Z)
| PyFloat (repr : string)
| PyStr (s : string)
| PyList (items : list pyval)
| PyTuple (items : list pyval)
| PyDict (items : list (pyval * pyval))
| PyObject (cls : string).

(** The exception classes that occur.  [JSONDecodeError] is a subclass of
    [ValueError], and every file error a subclass of [OSError]; a handler
    names the exact class in all the code embedded here. *)
Inductive exn : Type :=
| IndexError
| TypeError
| AttributeError
| ValueError
| JSONDecodeError
| CsvError
| FileNotFoundError
| FileExistsError
| IsADirectoryError
| NotADirectoryError
| PermissionError
| RecursionError.

Inductive outcome (A : Type) : Type :=
| Return (a : A)
| Raise (e : exn).
Arguments Return {A} a.
Arguments Raise {A} e.

Definition exn_eqb (a b : exn) : bool :=
  match a, b with
  | IndexError, IndexError | TypeError, TypeError
  | AttributeError, AttributeError | ValueError, ValueError
  | JSONDecodeError, JSONDecodeError | CsvError, CsvError
  | FileNotFoundError, FileNotFoundError | FileExistsError, FileExistsError
  | IsADirectoryError, IsADirectoryError
  | NotADirectoryError, NotADirectoryError
  | PermissionError, PermissionError
  | RecursionError, RecursionError => true
  | _, _ => false
  end.


(** [str(z)] for an [int]. *)
Definition int_str (z : Z) : string := NilZero.string_of_int (Z.to_int z).

End Py.
Export Py.

(** ** os.path (posixpath) *)

Module PosixPath.

Definition sep : ascii := "/"%char.

(** [p.rfind('/') + 1]: the index after the last slash, 0 without one. *)
Fixpoint rfind_sep_succ (p : string) : nat :=
  match p with
  | EmptyString => 0
  | String c r =>
      match rfind_sep_succ r with
      | 0 => if Ascii.eqb c sep then 1 else 0
      | S k => S (S k)
      end
  end.

(** [s == sep * len(s)] *)
Fixpoint all_sep (s : string) : bool :=
  match s with
  | EmptyString => true
  | String c r => Ascii.eqb c sep && all_sep r
  end.

(** [s.rstrip('/')] *)
Fixpoint rstrip_sep (s : string) : string :=
  match s with
  | EmptyString => EmptyString
  | String c r =>
      match rstrip_sep r with
      | EmptyString => if Ascii.eqb c sep then EmptyString else String c EmptyString
      | r' => String c r'
      end
  end.

Definition is_empty (s : string) : bool :=
  match s with EmptyString => true | _ => false end.

(** [posixpath.split]: head is everything before the last slash, without
    its trailing slashes unless it is made of slashes only. *)
Definition split (p : string) : string * string :=
  let i := rfind_sep_succ p in
  let head := substring 0 i p in
  let tail := substring i (String.length p - i) p in
  let head := if negb (is_empty head) && negb (all_sep head)
              then rstrip_sep head else head in
  (head, tail).

Definition dirname (p : string) : string := fst (split p).
Definition basename (p : string) : string := snd (split p).

Definition startswith_sep (b : string) : bool :=
  match b with String c _ => Ascii.eqb c sep | EmptyString => false end.

Fixpoint endswith_sep (a : string) : bool :=
  match a with
  | EmptyString => false
  | String c EmptyString => Ascii.eqb c sep
  | String _ r => endswith_sep r
  end.

(** The loop of [posixpath.join(a, *p)]. *)
Fixpoint join_from (path : string) (p : list string) : string :=
  match p with
  | [] => path
  | b :: rest =>
      if startswith_sep b then join_from b rest
      else if is_empty path || endswith_sep path then join_from (path +:+ b) rest
      else join_from (path +:+ String sep b) rest
  end.

Definition join (a : string) (p : list string) : string := join_from a p.

End PosixPath.

(** ** The operating system: directory entries, i-nodes, streams, output *)

Module OS.
Import PosixPath.

(** A directory entry is a directory (which may or may not allow entries
    to be added and removed) or a regular file, known by its i-node.
    Regular files are readable and writable by the process. *)
Inductive entry : Type :=
| Dir (writable : bool)
| Reg (ino : nat).

(** The file system maps a path, in the spelling the program uses, to its
    entry; the process's current directory is the entry of ["."].  The
    bytes of a regular file belong to its i-node, so that a stream opened
    before the file is truncated or unlinked keeps reading that file.
    [stdout] is what [print] has written, one line per call. *)
Record world : Type := World {
  names : gmap string entry;
  inodes : gmap nat string;
  next_ino : nat;
  stdout : list string
}.

(** A Python file object opened for reading: the i-node it reads, the
    offset of the next read and whether [close()] was called.  The
    buffering of the io module is not modelled: a read sees the bytes the
    i-node holds when [read] is called. *)
Record stream : Type := Stream {
  s_ino : nat;
  s_pos : nat;
  s_closed : bool
}.

Definition set_names (f : gmap string entry -> gmap string entry) (w : world) : world :=
  {| names := f (names w); inodes := inodes w;
     next_ino := next_ino w; stdout := stdout w |}.

Definition set_inode (i : nat) (bytes : string) (w : world) : world :=
  {| names := names w; inodes := <[i := bytes]> (inodes w);
     next_ino := next_ino w; stdout := stdout w |}.

(** [print(line)] *)
Definition print (line : string) (w : world) : world :=
  {| names := names w; inodes := inodes w;
     next_ino := next_ino w; stdout := stdout w ++ [line] |}.

(** What a path names; the empty path names nothing (ENOENT). *)
Definition lookup_path (w : world) (p : string) : option entry :=
  if is_empty p then None else names w !! p.

(** The directory a path's last component lives in. *)
Definition parent_entry (w : world) (p : string) : option entry :=
  let d := dirname p in
  names w !! (if is_empty d then "." else d).

(** [os.path.exists(p)] *)
Definition path_exists (w : world) (p : string) : bool :=
  match lookup_path w p with Some _ => true | None => false end.

(** [os.path.isdir(p)] *)
Definition path_isdir (w : world) (p : string) : bool :=
  match lookup_path w p with Some (Dir _) => true | _ => false end.

Definition file_bytes (w : world) (i : nat) : string :=
  default EmptyString (inodes w !! i).

(** The bytes of the regular file at [p], if there is one. *)
Definition content_at (w : world) (p : string) : option string :=
  match lookup_path w p with
  | Some (Reg i) => Some (file_bytes w i)
  | _ => None
  end.

(** [os.path.getsize(p)] for an existing regular file. *)
Definition getsize (w : world) (p : string) : option nat :=
  String.length <$> content_at w p.

(** The error of a path lookup that found nothing. *)
Definition missing_error (w : world) (p : string) : exn :=
  match parent_entry w p with
  | Some (Reg _) => if is_empty p then FileNotFoundError else NotADirectoryError
  | _ => FileNotFoundError
  end.

(** [open(p, 'r')] and [open(p, 'rb')]: a stream at offset 0. *)
Definition open_read (w : world) (p : string) : outcome stream :=
  match lookup_path w p with
  | Some (Reg i) => Return (Stream i 0 false)
  | Some (Dir _) => Raise IsADirectoryError
  | None => Raise (missing_error w p)
  end.

(** Adding the entry of a new, empty regular file at [p]. *)
Definition create_file (w : world) (p : string) : outcome nat * world :=
  if is_empty p then (Raise FileNotFoundError, w)
  else match parent_entry w p with
       | Some (Dir true) =>
           let i := next_ino w in
           (Return i,
            {| names := <[p := Reg i]> (names w);
               inodes := <[i := EmptyString]> (inodes w);
               next_ino := S i; stdout := stdout w |})
       | Some (Dir false) => (Raise PermissionError, w)
       | Some (Reg _) => (Raise NotADirectoryError, w)
       | None => (Raise FileNotFoundError, w)
       end.

(** [open(p, 'w')]: the file is created if missing and truncated. *)
Definition open_trunc (w : world) (p : string) : outcome nat * world :=
  match lookup_path w p with
  | Some (Reg i) => (Return i, set_inode i EmptyString w)
  | Some (Dir _) => (Raise IsADirectoryError, w)
  | None => create_file w p
  end.

(** [open(p, 'a')]: the file is created if missing and kept otherwise. *)
Definition open_append (w : world) (p : string) : outcome nat * world :=
  match lookup_path w p with
  | Some (Reg i) => (Return i, w)
  | Some (Dir _) => (Raise IsADirectoryError, w)
  | None => create_file w p
  end.

(** [open(p, 'x')]: exclusive creation. *)
Definition open_excl (w : world) (p : string) : outcome nat * world :=
  match lookup_path w p with
  | Some _ => (Raise FileExistsError, w)
  | None => create_file w p
  end.

(** [f.write(text)] on a file opened for writing, at its end. *)
Definition write_end (i : nat) (text : string) (w : world) : world :=
  set_inode i (file_bytes w i +:+ text) w.

(** [os.mkdir(name)] *)
Definition mkdir (w : world) (name : string) : outcome unit * world :=
  match lookup_path w name with
  | Some _ => (Raise FileExistsError, w)
  | None =>
      if is_empty name then (Raise FileNotFoundError, w)
      else match parent_entry w name with
           | Some (Dir true) => (Return tt, set_names (insert name (Dir true)) w)
           | Some (Dir false) => (Raise PermissionError, w)
           | Some (Reg _) => (Raise NotADirectoryError, w)
           | None => (Raise FileNotFoundError, w)
           end
  end.

(** [os.makedirs(name, exist_ok=True)], as os.py has it: the missing
    ancestors first, then [mkdir(name)], whose error is dropped when the
    directory is there.  The recursion is on the head of [split], which is
    shorter than [name]; [fuel] bounds it. *)
Fixpoint makedirs_fuel (fuel : nat) (w : world) (name : string) : outcome unit * world :=
  match fuel with
  | 0 => (Raise RecursionError, w)
  | S fuel' =>
      let '(head, tail) := split name in
      let '(head, tail) := if is_empty tail then split head else (head, tail) in
      let final (w : world) :=
        match mkdir w name with
        | (Raise e, w') =>
            if path_isdir w' name then (Return tt, w') else (Raise e, w')
        | done => done
        end in
      if negb (is_empty head) && negb (is_empty tail) && negb (path_exists w head)
      then
        match makedirs_fuel fuel' w head with
        | (Raise FileExistsError, w') | (Return tt, w') =>
            if String.eqb tail "." then (Return tt, w') else final w'
        | (Raise e, w') => (Raise e, w')
        end
      else final w
  end.

Definition makedirs (w : world) (name : string) : outcome unit * world :=
  makedirs_fuel (S (String.length name)) w name.

(** [os.remove(p)] *)
Definition remove (w : world) (p : string) : outcome unit * world :=
  match lookup_path w p with
  | None => (Raise (missing_error w p), w)
  | Some (Dir _) => (Raise IsADirectoryError, w)
  | Some (Reg _) =>
      match parent_entry w p with
      | Some (Dir false) => (Raise PermissionError, w)
      | _ => (Return tt, set_names (delete p) w)
      end
  end.

(** Universal newlines, the default of text mode on input: a carriage
    return, with the line feed after it if any, reads as one line feed. *)
Fixpoint universal_newlines (s : string) : string :=
  match s with
  | EmptyString => EmptyString
  | String c r =>
      if Ascii.eqb c "013"%char then
        match r with
        | String c' r' =>
            if Ascii.eqb c' "010"%char then String "010"%char (universal_newlines r')
            else String "010"%char (universal_newlines r)
        | EmptyString => String "010"%char EmptyString
        end
      else String c (universal_newlines r)
  end.

Fixpoint string_drop (n : nat) (s : string) : string :=
  match n, s with
  | S n', String _ r => string_drop n' r
  | _, _ => s
  end.

(** The bytes a stream has not read yet. *)
Definition unread (w : world) (st : stream) : string :=
  string_drop (s_pos st) (file_bytes w (s_ino st)).

Definition at_eof (w : world) (st : stream) : stream :=
  Stream (s_ino st)
         (Nat.max (s_pos st) (String.length (file_bytes w (s_ino st))))
         (s_closed st).

(** [f.read()] on a text stream: the rest of the file. *)
Definition read_text (w : world) (st : stream) : outcome string * stream :=
  if s_closed st then (Raise ValueError, st)
  else (Return (universal_newlines (unread w st)), at_eof w st).

(** [f.close()] *)
Definition close (st : stream) : stream :=
  Stream (s_ino st) (s_pos st) true.

End OS.

(** ** Characters *)

Module Chars.

Definition LF : ascii := "010"%char.
Definition CR : ascii := "013"%char.
Definition dquote : ascii := "034"%char.
Definition backslash : ascii := "\"%char.

Definition str1 (c : ascii) : string := String c EmptyString.

Fixpoint repeat_str (s : string) (n : nat) : string :=
  match n with 0 => EmptyString | S n' => s +:+ repeat_str s n' end.

Definition is_digit (c : ascii) : bool :=
  let n := nat_of_ascii c in (48 <=? n)%nat && (n <=? 57)%nat.

Definition hex_char (n : nat) : ascii :=
  ascii_of_nat (if (n <? 10)%nat then 48 + n else 87 + n).

(** The value of a hexadecimal digit. *)
Definition hex_val (c : ascii) : option N :=
  let n := nat_of_ascii c in
  if (48 <=? n)%nat && (n <=? 57)%nat then Some (N.of_nat (n - 48))
  else if (97 <=? n)%nat && (n <=? 102)%nat then Some (N.of_nat (n - 87))
  else if (65 <=? n)%nat && (n <=? 70)%nat then Some (N.of_nat (n - 55))
  else None.

Definition byte (n : N) : ascii := ascii_of_N n.

(** The UTF-8 bytes of a code point. *)
Definition utf8 (cp : N) : string :=
  if (cp <? 128)%N then str1 (byte cp)
  else if (cp <? 2048)%N then
    String (byte (192 + cp / 64)) (str1 (byte (128 + cp mod 64)))
  else if (cp <? 65536)%N then
    String (byte (224 + cp / 4096))
      (String (byte (128 + (cp / 64) mod 64)) (str1 (byte (128 + cp mod 64))))
  else
    String (byte (240 + cp / 262144))
      (String (byte (128 + (cp / 4096) mod 64))
         (String (byte (128 + (cp / 64) mod 64)) (str1 (byte (128 + cp mod 64))))).

End Chars.

(** ** json: [dump] with [ensure_ascii=False, indent=4], and [load] *)

Module Json.
Import Chars.

(** *** Encoding (json.encoder) *)

(** [py_encode_basestring]: quotes, backslashes and the control
    characters are escaped, every other character is kept as it is. *)
Definition escape_char (c : ascii) : string :=
  let n := nat_of_ascii c in
  if Ascii.eqb c backslash then "\\"
  else if Ascii.eqb c dquote then String backslash (str1 dquote)
  else if (n =? 8)%nat then "\b"
  else if (n =? 12)%nat then "\f"
  else if (n =? 10)%nat then "\n"
  else if (n =? 13)%nat then "\r"
  else if (n =? 9)%nat then "\t"
  else if (n <? 32)%nat then
    "\u00" +:+ String (hex_char (n / 16)) (str1 (hex_char (n mod 16)))
  else str1 c.

Fixpoint escape (s : string) : string :=
  match s with
  | EmptyString => EmptyString
  | String c r => escape_char c +:+ escape r
  end.

Definition encoder (s : string) : string :=
  String dquote (escape s +:+ str1 dquote).

(** [floatstr] with [allow_nan=True]. *)
Definition floatstr (repr : string) : string :=
  if String.eqb repr "nan" then "NaN"
  else if String.eqb repr "inf" then "Infinity"
  else if String.eqb repr "-inf" then "-Infinity"
  else repr.

(** What a generator has yielded, and the exception that ended it if one
    did: [json.dump] writes every chunk to the file as it is yielded, so
    the chunks before a failure are in the file. *)
Definition gen : Type := string * option exn.

Definition yield (s : string) : gen := (s, None).
Definition gen_raise (e : exn) : gen := (EmptyString, Some e).
Definition gen_seq (a b : gen) : gen :=
  match a with
  | (s, None) => (s +:+ fst b, snd b)
  | (s, Some e) => (s, Some e)
  end.

Definition indent_unit : string := "    ".
Definition item_separator : string := ",".
Definition key_separator : string := ": ".

Definition newline_indent (level : nat) : string :=
  str1 LF +:+ repeat_str indent_unit level.

(** The text of a scalar, [None] for a container or another object. *)
Definition scalar_text (v : pyval) : option string :=
  match v with
  | PyStr s => Some (encoder s)
  | PyNone => Some "null"
  | PyBool true => Some "true"
  | PyBool false => Some "false"
  | PyInt z => Some (int_str z)
  | PyFloat r => Some (floatstr r)
  | _ => None
  end.

(** The text of a dictionary key, [None] when the key is refused. *)
Definition key_text (k : pyval) : option string :=
  match k with
  | PyStr s => Some s
  | PyFloat r => Some (floatstr r)
  | PyBool true => Some "true"
  | PyBool false => Some "false"
  | PyNone => Some "null"
  | PyInt z => Some (int_str z)
  | _ => None
  end.

Section Loops.

(** [_iterencode] one level deeper, and that level's item separator. *)
Variable iterencode_inner : pyval -> gen.
Variable separator : string.

(** The loop of [_iterencode_list]: [buf] is the opening bracket before
    the first value and the separator before the others; it is yielded
    with a scalar and before a container. *)
Fixpoint encode_values (lst : list pyval) (buf : string) : gen :=
  match lst with
  | [] => yield EmptyString
  | value :: rest =>
      gen_seq
        match scalar_text value with
        | Some t => yield (buf +:+ t)
        | None => gen_seq (yield buf) (iterencode_inner value)
        end
        (encode_values rest separator)
  end.

(** The loop of [_iterencode_dict]: a key that is not a scalar ends it
    before anything of the item is yielded. *)
Fixpoint encode_items (items : list (pyval * pyval)) (first : bool) : gen :=
  match items with
  | [] => yield EmptyString
  | (key, value) :: rest =>
      match key_text key with
      | None => gen_raise TypeError
      | Some k =>
          gen_seq (yield (if first then EmptyString else separator))
         (gen_seq (yield (encoder k))
         (gen_seq (yield key_separator)
         (gen_seq
            match scalar_text value with
            | Some t => yield t
            | None => iterencode_inner value
            end
            (encode_items rest false))))
      end
  end.

End Loops.

(** [_iterencode], with [_iterencode_list] and [_iterencode_dict];
    [level] is [_current_indent_level]. *)
Fixpoint iterencode (o : pyval) (level : nat) : gen :=
  let separator := item_separator +:+ newline_indent (S level) in
  let iterencode_list (lst : list pyval) : gen :=
    match lst with
    | [] => yield "[]"
    | _ =>
        gen_seq
          (encode_values (fun v => iterencode v (S level)) separator
             lst ("[" +:+ newline_indent (S level)))
          (gen_seq (yield (newline_indent level)) (yield "]"))
    end in
  match o with
  | PyStr _ | PyNone | PyBool _ | PyInt _ | PyFloat _ =>
      match scalar_text o with Some t => yield t | None => gen_raise TypeError end
  | PyList lst => iterencode_list lst
  | PyTuple lst => iterencode_list lst
  | PyDict dct =>
      match dct with
      | [] => yield "{}"
      | _ =>
          gen_seq (yield "{")
         (gen_seq (yield (newline_indent (S level)))
         (gen_seq
            (encode_items (fun v => iterencode v (S level)) separator dct true)
            (gen_seq (yield (newline_indent level)) (yield "}"))))
      end
  | PyObject _ => gen_raise TypeError
  end.

(** The chunks [json.dump(o, fp, ensure_ascii=False, indent=4)] writes. *)
Definition dump (o : pyval) : gen := iterencode o 0.

(** Whether [json.dump] accepts the value: every leaf is a scalar or an
    empty container, every key a scalar. *)
Fixpoint serializable (o : pyval) : bool :=
  match o with
  | PyObject _ => false
  | PyList l | PyTuple l => forallb serializable l
  | PyDict items =>
      forallb (fun kv => match key_text (fst kv) with
                         | Some _ => serializable (snd kv)
                         | None => false
                         end) items
  | _ => true
  end.

(** *** Decoding (json.decoder, json.scanner)

    A decoder returns the value and the text after it, or [None] where
    the library raises [JSONDecodeError]. *)

Definition is_ws (c : ascii) : bool :=
  let n := nat_of_ascii c in
  (n =? 32)%nat || (n =? 9)%nat || (n =? 10)%nat || (n =? 13)%nat.

Fixpoint skip_ws (s : string) : string :=
  match s with
  | String c r => if is_ws c then skip_ws r else s
  | EmptyString => s
  end.

(** Four hexadecimal digits. *)
Definition hex4 (s : string) : option (N * string) :=
  match s with
  | String a (String b (String c (String d r))) =>
      match hex_val a, hex_val b, hex_val c, hex_val d with
      | Some x, Some y, Some z, Some t =>
          Some ((((x * 16 + y) * 16 + z) * 16 + t)%N, r)
      | _, _, _, _ => None
      end
  | _ => None
  end.

Definition unescape (c : ascii) : option ascii :=
  let n := nat_of_ascii c in
  if Ascii.eqb c dquote then Some dquote
  else if Ascii.eqb c backslash then Some backslash
  else if Ascii.eqb c "/" then Some "/"%char
  else if Ascii.eqb c "b" then Some "008"%char
  else if Ascii.eqb c "f" then Some "012"%char
  else if Ascii.eqb c "n" then Some LF
  else if Ascii.eqb c "r" then Some CR
  else if Ascii.eqb c "t" then Some "009"%char
  else None.

(** A [\u] escape, after the [u]: one code point, or a surrogate pair
    joined into one. *)
Definition unicode_escape (s : string) : option (N * string) :=
  match hex4 s with
  | None => None
  | Some (uni, r) =>
      if ((55296 <=? uni) && (uni <=? 56319))%N then
        match r with
        | String b (String u r2) =>
            if Ascii.eqb b backslash && Ascii.eqb u "u" then
              match hex4 r2 with
              | None => None
              | Some (uni2, r3) =>
                  if ((56320 <=? uni2) && (uni2 <=? 57343))%N
                  then Some ((65536 + ((uni - 55296) * 1024 + (uni2 - 56320)))%N, r3)
                  else Some (uni, r)
              end
            else Some (uni, r)
        | _ => Some (uni, r)
        end
      else Some (uni, r)
  end.

(** [scanstring] in strict mode, after the opening quote. *)
Fixpoint scanstring (fuel : nat) (s : string) : option (string * string) :=
  match fuel with
  | 0 => None
  | S fuel' =>
      match s with
      | EmptyString => None
      | String c r =>
          if Ascii.eqb c dquote then Some (EmptyString, r)
          else if Ascii.eqb c backslash then
            match r with
            | EmptyString => None
            | String e r' =>
                if Ascii.eqb e "u" then
                  match unicode_escape r' with
                  | None => None
                  | Some (cp, r'') =>
                      match scanstring fuel' r'' with
                      | Some (t, rest) => Some (utf8 cp +:+ t, rest)
                      | None => None
                      end
                  end
                else
                  match unescape e with
                  | None => None
                  | Some ch =>
                      match scanstring fuel' r' with
                      | Some (t, rest) => Some (String ch t, rest)
                      | None => None
                      end
                  end
            end
          else if (nat_of_ascii c <? 32)%nat then None
          else
            match scanstring fuel' r with
            | Some (t, rest) => Some (String c t, rest)
            | None => None
            end
      end
  end.

(** The longest run of digits at the head of a text. *)
Fixpoint span_digits (s : string) : string * string :=
  match s with
  | String c r =>
      if is_digit c then let '(d, rest) := span_digits r in (String c d, rest)
      else (EmptyString, s)
  | EmptyString => (EmptyString, EmptyString)
  end.

(** [NUMBER_RE]: an integer part, then an optional fraction and an
    optional exponent; the result is the three groups and the rest. *)
Definition match_number (s : string) : option (string * string * string * string) :=
  let '(sign, s1) :=
    match s with
    | String c r => if Ascii.eqb c "-" then ("-", r) else (EmptyString, s)
    | EmptyString => (EmptyString, s)
    end in
  let int_part :=
    match s1 with
    | String c r =>
        if Ascii.eqb c "0" then Some ("0", r)
        else if is_digit c then Some (span_digits s1)
        else None
    | EmptyString => None
    end in
  match int_part with
  | None => None
  | Some (digits, s2) =>
      let '(frac, s3) :=
        match s2 with
        | String c r =>
            if Ascii.eqb c "." then
              match span_digits r with
              | (EmptyString, _) => (EmptyString, s2)
              | (d, rest) => (String c d, rest)
              end
            else (EmptyString, s2)
        | EmptyString => (EmptyString, s2)
        end in
      let '(exp, s4) :=
        match s3 with
        | String c r =>
            if Ascii.eqb c "e" || Ascii.eqb c "E" then
              let '(sg, r1) :=
                match r with
                | String c' r' =>
                    if Ascii.eqb c' "-" || Ascii.eqb c' "+" then (str1 c', r')
                    else (EmptyString, r)
                | EmptyString => (EmptyString, r)
                end in
              match span_digits r1 with
              | (EmptyString, _) => (EmptyString, s3)
              | (d, rest) => (String c (sg +:+ d), rest)
              end
            else (EmptyString, s3)
        | EmptyString => (EmptyString, s3)
        end in
      Some (sign +:+ digits, frac, exp, s4)
  end.

(** [int(text)] for the integer group of [NUMBER_RE]. *)
Definition parse_int (text : string) : option Z :=
  Z.of_int <$> NilZero.int_of_string text.

(** [dict(pairs)]: a later pair replaces the value of an earlier one with
    the same key and keeps its place. *)
Fixpoint dict_set (key : string) (v : pyval) (items : list (pyval * pyval))
  : list (pyval * pyval) :=
  match items with
  | [] => [(PyStr key, v)]
  | (PyStr k, v0) :: rest =>
      if String.eqb k key then (PyStr k, v) :: rest
      else (PyStr k, v0) :: dict_set key v rest
  | kv :: rest => kv :: dict_set key v rest
  end.

Definition starts (lit s : string) : bool := String.prefix lit s.

Definition after (lit s : string) : string :=
  OS.string_drop (String.length lit) s.

(** [scan_once], with the loops of [JSONArray] and [JSONObject].  Each
    call reads at least one character, so twice the length of the text
    is fuel enough. *)
Fixpoint scan_once (fuel : nat) (s : string) : option (pyval * string) :=
  match fuel with
  | 0 => None
  | S fuel' =>
      match s with
      | EmptyString => None
      | String c r =>
          if Ascii.eqb c dquote then
            match scanstring (String.length s) r with
            | Some (t, rest) => Some (PyStr t, rest)
            | None => None
            end
          else if Ascii.eqb c "{" then
            match skip_ws r with
            | String c' r' =>
                if Ascii.eqb c' "}" then Some (PyDict [], r')
                else if Ascii.eqb c' dquote then
                  match scan_members fuel' r' [] with
                  | Some (pairs, rest) => Some (PyDict pairs, rest)
                  | None => None
                  end
                else None
            | EmptyString => None
            end
          else if Ascii.eqb c "[" then
            match skip_ws r with
            | String c' r' =>
                if Ascii.eqb c' "]" then Some (PyList [], r')
                else
                  match scan_items fuel' (String c' r') with
                  | Some (values, rest) => Some (PyList values, rest)
                  | None => None
                  end
            | EmptyString => None
            end
          else if starts "null" s then Some (PyNone, after "null" s)
          else if starts "true" s then Some (PyBool true, after "true" s)
          else if starts "false" s then Some (PyBool false, after "false" s)
          else
            match match_number s with
            | Some (integer, frac, exp, rest) =>
                if PosixPath.is_empty frac && PosixPath.is_empty exp then
                  match parse_int integer with
                  | Some z => Some (PyInt z, rest)
                  | None => None
                  end
                else Some (PyFloat (integer +:+ frac +:+ exp), rest)
            | None =>
                if starts "NaN" s then Some (PyFloat "nan", after "NaN" s)
                else if starts "Infinity" s then Some (PyFloat "inf", after "Infinity" s)
                else if starts "-Infinity" s then Some (PyFloat "-inf", after "-Infinity" s)
                else None
            end
      end
  end

(** The values of an array, from the first character of a value. *)
with scan_items (fuel : nat) (s : string) : option (list pyval * string) :=
  match fuel with
  | 0 => None
  | S fuel' =>
      match scan_once fuel' s with
      | None => None
      | Some (value, rest) =>
          match skip_ws rest with
          | String c r =>
              if Ascii.eqb c "]" then Some ([value], r)
              else if Ascii.eqb c "," then
                match scan_items fuel' (skip_ws r) with
                | Some (values, rest') => Some (value :: values, rest')
                | None => None
                end
              else None
          | EmptyString => None
          end
      end
  end

(** The pairs of an object, after the opening quote of a key. *)
with scan_members (fuel : nat) (s : string) (pairs : list (pyval * pyval))
  : option (list (pyval * pyval) * string) :=
  match fuel with
  | 0 => None
  | S fuel' =>
      match scanstring (S (String.length s)) s with
      | None => None
      | Some (key, rest) =>
          match skip_ws rest with
          | String c r =>
              if Ascii.eqb c ":" then
                match scan_once fuel' (skip_ws r) with
                | None => None
                | Some (value, rest') =>
                    let pairs' := dict_set key value pairs in
                    match skip_ws rest' with
                    | String c' r' =>
                        if Ascii.eqb c' "}" then Some (pairs', r')
                        else if Ascii.eqb c' "," then
                          match skip_ws r' with
                          | String q r'' =>
                              if Ascii.eqb q dquote
                              then scan_members fuel' r'' pairs'
                              else None
                          | EmptyString => None
                          end
                        else None
                    | EmptyString => None
                    end
                end
              else None
          | EmptyString => None
          end
      end
  end.

(** [json.loads(s)]: one value between optional white space. *)
Definition loads (s : string) : outcome pyval :=
  let s0 := skip_ws s in
  match scan_once (2 * String.length s0 + 2) s0 with
  | Some (value, rest) =>
      match skip_ws rest with
      | EmptyString => Return value
      | _ => Raise JSONDecodeError
      end
  | None => Raise JSONDecodeError
  end.

End Json.

(** ** csv: the writer and the reader of the default ([excel]) dialect

    delimiter [,], quotechar a double quote, doubled inside a quoted
    field, line terminator CR LF, minimal quoting, not strict. *)

Module Csv.
Import Chars.

Definition delimiter : ascii := ","%char.
Definition lineterminator : string := String CR (str1 LF).

(** *** Writer *)

(** A character that makes the writer quote the field. *)
Definition special (c : ascii) : bool :=
  Ascii.eqb c delimiter || Ascii.eqb c dquote || Ascii.eqb c CR || Ascii.eqb c LF.

Fixpoint has_special (s : string) : bool :=
  match s with
  | EmptyString => false
  | String c r => special c || has_special r
  end.

Fixpoint double_quotes (s : string) : string :=
  match s with
  | EmptyString => EmptyString
  | String c r =>
      if Ascii.eqb c dquote then String c (String c (double_quotes r))
      else String c (double_quotes r)
  end.

Definition quoted (s : string) : string :=
  String dquote (double_quotes s +:+ str1 dquote).

Definition join_field (s : string) : string :=
  if has_special s then quoted s else s.

Fixpoint join_fields (fields : list string) : string :=
  match fields with
  | [] => EmptyString
  | [f] => join_field f
  | f :: rest => join_field f +:+ String delimiter (join_fields rest)
  end.

(** [writerow]: a record made of one empty field is written quoted. *)
Definition record (fields : list string) : string :=
  match fields, join_fields fields with
  | _ :: _, EmptyString => quoted EmptyString +:+ lineterminator
  | _, rec => rec +:+ lineterminator
  end.

Section Cells.

(** [str(v)] for a container or an opaque object. *)
Variable object_str : pyval -> string.

(** The text of a cell: a [str] as it is, [None] as the empty text, and
    [str(v)] for everything else. *)
Definition cell_text (v : pyval) : string :=
  match v with
  | PyStr s => s
  | PyNone => EmptyString
  | PyInt z => int_str z
  | PyBool true => "True"
  | PyBool false => "False"
  | PyFloat r => r
  | _ => object_str v
  end.

(** [writer.writerows(rows)] for rows that are lists: the text written. *)
Fixpoint writerows (rows : list (list pyval)) : string :=
  match rows with
  | [] => EmptyString
  | row :: rest => record (map cell_text row) +:+ writerows rest
  end.

End Cells.

(** *** Reader *)

Inductive parser_state : Type :=
| START_RECORD
| START_FIELD
| IN_FIELD
| IN_QUOTED_FIELD
| QUOTE_IN_QUOTED_FIELD
| EAT_CRNL.

Record reader : Type := Reader {
  state : parser_state;
  field : string;
  fields : list string
}.

Definition parse_reset : reader := Reader START_RECORD EmptyString [].

Definition add_char (c : ascii) (p : reader) (s : parser_state) : reader :=
  Reader s (field p +:+ str1 c) (fields p).

Definition save_field (p : reader) (s : parser_state) : reader :=
  Reader s EmptyString (fields p ++ [field p]).

Definition set_state (p : reader) (s : parser_state) : reader :=
  Reader s (field p) (fields p).

Definition is_eol (c : ascii) : bool := Ascii.eqb c LF || Ascii.eqb c CR.

(** [parse_process_char]; [None] is the end-of-line mark the reader
    feeds after the last character of each line. *)
Definition process_char (p : reader) (c : option ascii) : outcome reader :=
  let start_field (p : reader) :=
    match c with
    | None => Return (save_field p START_RECORD)
    | Some ch =>
        if is_eol ch then Return (save_field p EAT_CRNL)
        else if Ascii.eqb ch dquote then Return (set_state p IN_QUOTED_FIELD)
        else if Ascii.eqb ch delimiter then Return (save_field p START_FIELD)
        else Return (add_char ch p IN_FIELD)
    end in
  match state p with
  | START_RECORD =>
      match c with
      | None => Return p
      | Some ch =>
          if is_eol ch then Return (set_state p EAT_CRNL) else start_field p
      end
  | START_FIELD => start_field p
  | IN_FIELD =>
      match c with
      | None => Return (save_field p START_RECORD)
      | Some ch =>
          if is_eol ch then Return (save_field p EAT_CRNL)
          else if Ascii.eqb ch delimiter then Return (save_field p START_FIELD)
          else Return (add_char ch p IN_FIELD)
      end
  | IN_QUOTED_FIELD =>
      match c with
      | None => Return p
      | Some ch =>
          if Ascii.eqb ch dquote then Return (set_state p QUOTE_IN_QUOTED_FIELD)
          else Return (add_char ch p IN_QUOTED_FIELD)
      end
  | QUOTE_IN_QUOTED_FIELD =>
      match c with
      | None => Return (save_field p START_RECORD)
      | Some ch =>
          if Ascii.eqb ch dquote then Return (add_char ch p IN_QUOTED_FIELD)
          else if Ascii.eqb ch delimiter then Return (save_field p START_FIELD)
          else if is_eol ch then Return (save_field p EAT_CRNL)
          else Return (add_char ch p IN_FIELD)
      end
  | EAT_CRNL =>
      match c with
      | None => Return (set_state p START_RECORD)
      | Some ch => if is_eol ch then Return p else Raise CsvError
      end
  end.

(** The characters of one line, then the end-of-line mark. *)
Fixpoint process_line (p : reader) (line : string) : outcome reader :=
  match line with
  | EmptyString => process_char p None
  | String c r =>
      match process_char p (Some c) with
      | Return p' => process_line p' r
      | Raise e => Raise e
      end
  end.

(** [[row for row in reader]]: a record ends with the line that leaves
    the parser at the start of a record; at the end of the input a record
    left open is given as far as it goes. *)
Fixpoint read_records (p : reader) (lines : list string) : outcome (list (list string)) :=
  match lines with
  | [] =>
      match field p, state p with
      | EmptyString, START_RECORD | EmptyString, START_FIELD
      | EmptyString, IN_FIELD | EmptyString, QUOTE_IN_QUOTED_FIELD
      | EmptyString, EAT_CRNL => Return []
      | _, _ => Return [fields (save_field p START_RECORD)]
      end
  | line :: rest =>
      match process_line p line with
      | Raise e => Raise e
      | Return p' =>
          match state p' with
          | START_RECORD =>
              match read_records parse_reset rest with
              | Return rows => Return (fields p' :: rows)
              | Raise e => Raise e
              end
          | _ => read_records p' rest
          end
      end
  end.

(** The lines a text file yields when iterated, each with its line feed. *)
Fixpoint lines_from (cur s : string) : list string :=
  match s with
  | EmptyString => if PosixPath.is_empty cur then [] else [cur]
  | String c r =>
      if Ascii.eqb c LF then (cur +:+ str1 c) :: lines_from EmptyString r
      else lines_from (cur +:+ str1 c) r
  end.

Definition readlines (text : string) : list string := lines_from EmptyString text.

(** [list(csv.reader(f))] for the text [f] yields. *)
Definition read (text : string) : outcome (list (list string)) :=
  read_records parse_reset (readlines text).

End Csv.

(** ** What the class takes from the standard library as it is

    The digest algorithms of [hashlib] ([hashlib_new] is [None] for a
    name [hashlib.new] refuses with a [ValueError]; [hexdigest] is [None]
    for an algorithm that wants a length and raises a [TypeError]
    without one), [str()] of containers and opaque objects, and the
    message of an exception raised for a path. *)

Record stdlib : Type := Stdlib {
  hasher : Type;
  hashlib_new : string -> option hasher;
  hash_update : hasher -> string -> hasher;
  hexdigest : hasher -> option string;
  object_str : pyval -> string;
  error_str : exn -> string -> string
}.

(** ** pz_fileio.File *)

Module FileIO.
Import PosixPath OS Chars.

(** The two attributes of a [File] object. *)
Record File : Type := mkFile {
  Path : string;
  Content : option stream
}.

(** The reference a method gives back with [return self]: the receiver,
    whose attributes are the [File] the method leaves behind. *)
Inductive self_ref : Type := Self.

(** A method body runs on the receiver and the world; an exception
    leaves the effects made before it in place. *)
Definition M (A : Type) : Type := File -> world -> outcome A * (File * world).

Definition ret {A} (a : A) : M A := fun self w => (Return a, (self, w)).

Definition raise {A} (e : exn) : M A := fun self w => (Raise e, (self, w)).

Definition bind {A B} (m : M A) (k : A -> M B) : M B :=
  fun self w =>
    match m self w with
    | (Return a, (self', w')) => k a self' w'
    | (Raise e, sw) => (Raise e, sw)
    end.

(** [try: m except ...]: the handler of a class it names, if any. *)
Definition try_except {A} (m : M A) (handler : exn -> option (M A)) : M A :=
  fun self w =>
    match m self w with
    | (Raise e, (self', w')) =>
        match handler e with
        | Some h => h self' w'
        | None => (Raise e, (self', w'))
        end
    | done => done
    end.

Notation "x <- m ;; k" := (bind m (fun x => k))
  (at level 100, m at next level, right associativity).
Notation "m ;; k" := (bind m (fun _ => k))
  (at level 100, right associativity).

Definition get_path : M string := fun self w => (Return (Path self), (self, w)).

Definition get_content : M (option stream) :=
  fun self w => (Return (Content self), (self, w)).

Definition set_path (p : string) : M unit :=
  fun self w => (Return tt, (mkFile p (Content self), w)).

Definition set_content (c : option stream) : M unit :=
  fun self w => (Return tt, (mkFile (Path self) c, w)).

(** A system call: it may change the world and may raise. *)
Definition syscall {A} (f : world -> outcome A * world) : M A :=
  fun self w => let '(r, w') := f w in (r, (self, w')).

Definition inspect {A} (f : world -> A) : M A :=
  fun self w => (Return (f w), (self, w)).

Definition of_outcome {A} (r : outcome A) : M A :=
  fun self w => (r, (self, w)).

Definition say (line : string) : M unit :=
  fun self w => (Return tt, (self, print line w)).

(** [open(self.Path, 'r', encoding='utf-8')] *)
Definition open_for_reading : M stream :=
  p <- get_path ;; syscall (fun w => (open_read w p, w)).

(** [with open(self.Path, mode) as f: body]: the file is open while
    [body] runs and closed whatever way it ends. *)
Definition with_open {A} (opener : world -> string -> outcome nat * world)
    (body : nat -> M A) : M A :=
  p <- get_path ;;
  f <- syscall (fun w => opener w p) ;;
  body f.

(** [f.write(text)] *)
Definition write (f : nat) (text : string) : M unit :=
  fun self w => (Return tt, (self, write_end f text w)).

Definition str_arg (v : pyval) : option string :=
  match v with PyStr s => Some s | _ => None end.

(** The path expression of [__init__]: the empty text if [path[0]] is
    [None], else [os.path.join] of the segments. *)
Definition path_of_segments (path : list pyval) : outcome string :=
  match path with
  | [] => Raise IndexError
  | PyNone :: _ => Return EmptyString
  | a :: p =>
      match str_arg a, mapM str_arg p with
      | Some a', Some p' => Return (join a' p')
      | _, _ => Raise TypeError
      end
  end.

(** [Exists] *)
Definition Exists : M bool :=
  p <- get_path ;; inspect (fun w => path_exists w p).

(** [__init__], run on the object being built. *)
Definition init (path : list pyval) : M unit :=
  p <- of_outcome (path_of_segments path) ;;
  set_path p ;;
  set_content None ;;
  e <- Exists ;;
  if e then (f <- open_for_reading ;; set_content (Some f))
  else ret tt.

(** [File(...)]: the new object, unless [__init__] raises. *)
Definition new (path : list pyval) (w : world) : outcome File * world :=
  match init path (mkFile EmptyString None) w with
  | (Return _, (self, w')) => (Return self, w')
  | (Raise e, (_, w')) => (Raise e, w')
  end.

(** [GetBasename], [GetDirname] *)
Definition GetBasename : M string := p <- get_path ;; ret (basename p).
Definition GetDirname : M string := p <- get_path ;; ret (dirname p).

(** [GetFileSize] *)
Definition GetFileSize : M (option nat) :=
  e <- Exists ;;
  if e then (p <- get_path ;; inspect (fun w => getsize w p))
  else ret None.

(** [IsEmpty] *)
Definition IsEmpty : M bool :=
  e <- Exists ;;
  if e then
    (p <- get_path ;;
     inspect (fun w => match getsize w p with Some 0 => true | _ => false end))
  else ret true.

(** [Close] *)
Definition Close : M unit :=
  c <- get_content ;;
  match c with
  | Some f => set_content (Some (close f)) ;; set_content None
  | None => ret tt
  end.

(** [__exit__] *)
Definition exit_ : M unit :=
  c <- get_content ;;
  match c with
  | Some f => set_content (Some (close f))
  | None => ret tt
  end.

(** [Create] *)
Definition Create : M self_ref :=
  d <- GetDirname ;;
  syscall (fun w => makedirs w d) ;;
  try_except
    (with_open open_excl (fun _ => ret tt))
    (fun e => match e with FileExistsError => Some (ret tt) | _ => None end) ;;
  ret Self.

(** [Delete] *)
Definition Delete : M self_ref :=
  e <- Exists ;;
  (if e then
     c <- get_content ;;
     match c with
     | None => raise AttributeError
     | Some f => set_content (Some (close f))
     end ;;
     p <- get_path ;;
     try_except
       (syscall (fun w => remove w p) ;; ret true)
       (fun e =>
          match e with
          | FileNotFoundError => Some (say ("File not found: " +:+ p) ;; ret false)
          | PermissionError =>
              Some (say ("Permission error deleting file: " +:+ p) ;; ret false)
          | _ => None
          end)
   else ret false) ;;
  ret Self.

(** [Read] *)
Definition Read : M (option string) :=
  c <- get_content ;;
  match c with
  | Some f =>
      text <- (fun self w =>
                 let '(r, f') := read_text w f in
                 (r, (mkFile (Path self) (Some f'), w))) ;;
      ret (Some text)
  | None => ret None
  end.


(** The loop [for line in content: f.write(line + "\n")]. *)
Fixpoint write_lines (f : nat) (content : list pyval) : M unit :=
  match content with
  | [] => ret tt
  | line :: rest =>
      match line with
      | PyStr s => write f (s +:+ str1 LF) ;; write_lines f rest
      | _ => raise TypeError
      end
  end.

(** [Append] *)
Definition Append (content : list pyval) : M self_ref :=
  with_open open_append (fun f => write_lines f content) ;;
  ret Self.

(** [Overwrite] *)
Definition Overwrite (content : list pyval) : M self_ref :=
  with_open open_trunc (fun f => write_lines f content) ;;
  ret Self.

(** [json.load(self.Content)]: [fp.read()] then [json.loads]. *)
Definition json_load : M pyval :=
  c <- get_content ;;
  match c with
  | None => raise AttributeError
  | Some f =>
      text <- (fun self w =>
                 let '(r, f') := read_text w f in
                 (r, (mkFile (Path self) (Some f'), w))) ;;
      of_outcome (Json.loads text)
  end.

(** [ReadAsJson] *)
Definition ReadAsJson : M pyval :=
  try_except json_load
    (fun e => match e with JSONDecodeError => Some (ret PyNone) | _ => None end).

(** [isinstance(content, (dict, list, str, int, float, bool, type(None)))] *)
Definition json_type (content : pyval) : bool :=
  match content with
  | PyDict _ | PyList _ | PyStr _ | PyInt _ | PyFloat _ | PyBool _ | PyNone => true
  | PyTuple _ | PyObject _ => false
  end.

(** [json.dump(content, f, ensure_ascii=False, indent=4)] *)
Definition json_dump (content : pyval) (f : nat) : M unit :=
  let '(text, failure) := Json.dump content in
  write f text ;;
  match failure with
  | Some e => raise e
  | None => ret tt
  end.

(** [WriteAsJson] *)
Definition WriteAsJson (content : pyval) : M self_ref :=
  (if json_type content then ret tt else raise TypeError) ;;
  with_open open_trunc (json_dump content) ;;
  ret Self.

(** What [for row in rows] goes through, [None] when [rows] cannot be
    iterated. *)
Definition py_iter (rows : pyval) : option (list pyval) :=
  match rows with
  | PyList l | PyTuple l => Some l
  | PyDict items => Some (map fst items)
  | PyStr s => Some (map (fun c => PyStr (str1 c)) (list_ascii_of_string s))
  | _ => None
  end.

Definition list_arg (row : pyval) : option (list pyval) :=
  match row with PyList l => Some l | _ => None end.



Section WithStdlib.
Context (lib : stdlib).

(** [Open].  Of the two classes its handler names, [open] can raise
    [FileNotFoundError] only: nothing is decoded before a read. *)
Definition Open : M self_ref :=
  e <- Exists ;;
  p <- get_path ;;
  (if e then
     try_except
       (f <- open_for_reading ;; set_content (Some f))
       (fun e =>
          match e with
          | FileNotFoundError =>
              Some (say ("Error reading file content: " +:+ error_str lib e p))
          | _ => None
          end)
   else
     set_content None ;;
     say ("File not found: " +:+ p)) ;;
  ret Self.

(** [__enter__] *)
Definition enter : M self_ref :=
  c <- get_content ;;
  match c with
  | None => Open
  | Some _ => ret Self
  end.

(** [Recreate] *)
Definition Recreate : M self_ref :=
  e <- Exists ;;
  (if e then Delete else ret Self) ;;
  Create ;;
  Open ;;
  ret Self.

(** [ReadAsCsv] *)
Definition ReadAsCsv : M (option (list (list string))) :=
  p <- get_path ;;
  try_except
    (f <- open_for_reading ;;
     text <- inspect (fun w => universal_newlines (unread w f)) ;;
     rows <- of_outcome (Csv.read text) ;;
     ret (Some rows))
    (fun e =>
       match e with
       | FileNotFoundError | CsvError =>
           Some (say ("Error reading file as CSV: " +:+ error_str lib e p) ;;
                 ret None)
       | _ => None
       end).

(** [WriteAsCsv] *)
Definition WriteAsCsv (rows : pyval) : M self_ref :=
  p <- get_path ;;
  items <- match py_iter rows with
           | Some items => ret items
           | None => raise TypeError
           end ;;
  match mapM list_arg items with
  | None => raise TypeError
  | Some lists =>
      try_except
        (with_open open_trunc
           (fun f => write f (Csv.writerows (object_str lib) lists)))
        (fun e =>
           match e with
           | FileNotFoundError | CsvError =>
               Some (say ("Error writing file as CSV: " +:+ error_str lib e p))
           | _ => None
           end) ;;
      ret Self
  end.

(** [iter(lambda: f.read(4096), b'')]: the blocks of a binary stream. *)
Fixpoint read_chunks (fuel size : nat) (bytes : string) : list string :=
  match fuel, bytes with
  | S fuel', String _ _ =>
      substring 0 size bytes :: read_chunks fuel' size (string_drop size bytes)
  | _, _ => []
  end.

Definition chunks (bytes : string) : list string :=
  read_chunks (String.length bytes) 4096 bytes.

(** [Hash] *)
Definition Hash (algorithm : string) : M (option string) :=
  e <- Exists ;;
  p <- get_path ;;
  if negb e then
    say ("File not found: " +:+ p) ;; ret None
  else
    try_except
      (f <- syscall (fun w => (open_read w p, w)) ;;
       h <- match hashlib_new lib algorithm with
            | Some h => ret h
            | None => raise ValueError
            end ;;
       bytes <- inspect (fun w => unread w f) ;;
       match hexdigest lib (fold_left (hash_update lib) (chunks bytes) h) with
       | Some digest => ret (Some digest)
       | None => raise TypeError
       end)
      (fun e =>
         match e with
         | FileNotFoundError => Some (say ("File not found: " +:+ p) ;; ret None)
         | _ => None
         end).

End WithStdlib.

End FileIO.

(** ** Sample inputs

    A small world to run the methods in: a writable current directory,
    a writable directory [data] with the file [data/notes.txt], whose
    text is [hello], a directory [locked] that refuses changes and holds
    [locked/keep.txt].  The sample library digests a file into the number
    of its bytes. *)

Module Sample.
Import OS FileIO.

Definition world0 : world :=
  {| names := <["." := Dir true]> (<["data" := Dir true]>
              (<["data/notes.txt" := Reg 0]> (<["locked" := Dir false]>
              (<["locked/keep.txt" := Reg 1]> ∅))));
     inodes := <[0 := "hello"]> (<[1 := "kept"]> ∅);
     next_ino := 2;
     stdout := [] |}.

Definition byte_count : stdlib :=
  {| hasher := nat;
     hashlib_new := fun name => if String.eqb name "count" then Some 0 else None;
     hash_update := fun h bytes => h + String.length bytes;
     hexdigest := fun h => Some (int_str (Z.of_nat h));
     object_str := fun _ => "<object>";
     error_str := fun _ p => "[Errno] " +:+ p |}.

(** A handle as [File("data/notes.txt")] builds it in [world0]. *)
Definition notes : File := mkFile "data/notes.txt" (Some (Stream 0 0 false)).

(** A handle on a path that is not there. *)
Definition fresh : File := mkFile "data/new.txt" None.

End Sample.

(** ** Properties *)

Import PosixPath OS FileIO.

(** When [open(p, 'w')] goes through: [p] is a regular file, or is not
    there while the directory it lies in is there and writable. *)
Definition writable (w : world) (p : string) : bool :=
  match lookup_path w p with
  | Some (Reg _) => true
  | Some (Dir _) => false
  | None =>
      negb (is_empty p) &&
      match parent_entry w p with Some (Dir true) => true | _ => false end
  end.

(** How [json.dump] ends on a value that is, or is not, serializable. *)
Definition failure_of (ok : bool) : option exn :=
  if ok then None else Some TypeError.

(** What [Hash] returns for a file of the given bytes. *)
Definition digest (lib : stdlib) (algorithm bytes : string) : outcome (option string) :=
  match hashlib_new lib algorithm with
  | None => Raise ValueError
  | Some h =>
      match hexdigest lib (fold_left (hash_update lib) (chunks bytes) h) with
      | Some d => Return (Some d)
      | None => Raise TypeError
      end
  end.

(** The text of lines written one after the other, a line feed after
    each. *)
Fixpoint lines_text (lines : list string) : string :=
  match lines with
  | [] => EmptyString
  | l :: rest => l +:+ Chars.str1 Chars.LF +:+ lines_text rest
  end.

(** Whether a byte occurs in a text. *)
Fixpoint has_byte (c : ascii) (s : string) : bool :=
  match s with
  | EmptyString => false
  | String c' r => Ascii.eqb c' c || has_byte c r
  end.


(** What a run of writes on one file leaves: its bytes grow at the end,
    nothing else changes. *)
Definition wrote (f : nat) (text : string) (w w' : world) : Prop :=
  names w' = names w
  /\ stdout w' = stdout w
  /\ next_ino w' = next_ino w
  /\ file_bytes w' f = file_bytes w f +:+ text.

(** A directory that is there, spelt without a slash at its end, in a
    directory that is there too (or in the current one). *)
Definition settled (w : world) (d : string) : Prop :=
  path_isdir w d = true
  /\ basename d <> EmptyString
  /\ (dirname d = EmptyString \/ path_isdir w (dirname d) = true).

(** The world once a new, empty regular file was added at [p]. *)
Definition with_new_file (p : string) (w : world) : world :=
  {| names := <[p := Reg (next_ino w)]> (names w);
     inodes := <[next_ino w := EmptyString]> (inodes w);
     next_ino := S (next_ino w);
     stdout := stdout w |}.



(** Whether a text can follow a number: it does not go on with a digit,
    a fraction or an exponent. *)
Definition delimits (rest : string) : bool :=
  match rest with
  | EmptyString => true
  | String c _ =>
      negb (Chars.is_digit c || Ascii.eqb c "." || Ascii.eqb c "e" || Ascii.eqb c "E")
  end.

(** Whether a dictionary has an item with the given [str] key. *)
Definition key_in (k : string) (items : list (pyval * pyval)) : bool :=
  existsb (fun kv => match fst kv with PyStr s => String.eqb s k | _ => false end) items.

(** Keys that are [str] and all different. *)
Fixpoint distinct_keys (items : list (pyval * pyval)) : bool :=
  match items with
  | [] => true
  | (PyStr k, _) :: rest => negb (key_in k rest) && distinct_keys rest
  | _ :: _ => false
  end.

(** The values JSON holds as they are: [None], [bool], [int], [str],
    lists of such values, dictionaries of such values under distinct
    [str] keys. *)
Fixpoint json_plain (v : pyval) : bool :=
  match v with
  | PyNone | PyBool _ | PyInt _ | PyStr _ => true
  | PyList l => forallb json_plain l
  | PyDict items => distinct_keys items && forallb (fun kv => json_plain (snd kv)) items
  | PyFloat _ | PyTuple _ | PyObject _ => false
  end.

(** A character a JSON value can start with. *)
Definition starts_value (c : ascii) : bool :=
  Chars.is_digit c
  || existsb (Ascii.eqb c) [Chars.dquote; "["; "{"; "-"; "n"; "t"; "f"]%char.

(** A value is scanned back from the text the encoder gives it at any
    level of indentation, whatever follows that cannot go on a number. *)
Definition scans_back (v : pyval) : Prop :=
  forall level f rest,
    String.length (fst (Json.iterencode v level)) <= f ->
    delimits rest = true ->
    Json.scan_once f (fst (Json.iterencode v level) +:+ rest) = Some (v, rest).

(** The nesting of containers in a value. *)
Fixpoint nesting (v : pyval) : nat :=
  match v with
  | PyList l => S (fold_right (fun x n => Nat.max (nesting x) n) 0 l)
  | PyDict items => S (fold_right (fun kv n => Nat.max (nesting (snd kv)) n) 0 items)
  | _ => 0
  end.

(** Whether every [int] of a value is below the given bound in absolute value. *)
Fixpoint ints_below (bound : Z) (v : pyval) : bool :=
  match v with
  | PyInt z => (Z.abs z <? bound)%Z
  | PyList l => forallb (ints_below bound) l
  | PyDict items => forallb (fun kv => ints_below bound (snd kv)) items
  | _ => true
  end.

(** The limits of the interpreter, which the model does not have: an
    [int] is printed and parsed up to 4300 digits
    ([sys.get_int_max_str_digits()]), and the encoder and the decoder
    recurse once for each level of nesting, which the default recursion
    limit allows for a hundred levels with room to spare. *)
Definition within_limits (v : pyval) : bool :=
  (nesting v <=? 100)%nat && ints_below (10 ^ 4300)%Z v.

(** The text of a value has no carriage return, at any level. *)
Definition no_cr (v : pyval) : Prop :=
  forall level, has_byte Chars.CR (fst (Json.iterencode v level)) = false.





(** *** The monad *)

Lemma bind_return {A B} (m : M A) (k : A -> M B) h w a h' w' :
  m h w = (Return a, (h', w')) -> bind m k h w = k a h' w'.
Proof. intros E. unfold bind. now rewrite E. Qed.

Lemma bind_raise {A B} (m : M A) (k : A -> M B) h w e sw :
  m h w = (Raise e, sw) -> bind m k h w = (Raise e, sw).
Proof. intros E. unfold bind. now rewrite E. Qed.

Lemma Exists_eq h w : Exists h w = (Return (path_exists w (Path h)), (h, w)).
Proof. reflexivity. Qed.

Lemma File_eta h : mkFile (Path h) (Content h) = h.
Proof. now destruct h. Qed.

(** *** The file system *)


Lemma lookup_path_names w p : is_empty p = false -> lookup_path w p = names w !! p.
Proof. unfold lookup_path. now intros ->. Qed.

Lemma path_exists_regular w p i : lookup_path w p = Some (Reg i) -> path_exists w p = true.
Proof. unfold path_exists. now intros ->. Qed.

Lemma file_bytes_set_inode w i bytes : file_bytes (set_inode i bytes w) i = bytes.
Proof. unfold file_bytes, set_inode. simpl. now rewrite lookup_insert_eq. Qed.

(** Opening a writable path for writing gives an empty regular file at
    that path and changes nothing else a caller can see. *)
Lemma open_trunc_writable w p :
  writable w p = true ->
  exists i w', open_trunc w p = (Return i, w')
    /\ lookup_path w' p = Some (Reg i)
    /\ file_bytes w' i = EmptyString
    /\ stdout w' = stdout w.
Proof.
  unfold writable, open_trunc. intros Hw.
  destruct (lookup_path w p) as [[d|i]|] eqn:L; try discriminate.
  - exists i, (set_inode i EmptyString w). repeat split.
    + exact L.
    + apply file_bytes_set_inode.
  - apply andb_prop in Hw as [Hp Hd]. apply negb_true_iff in Hp.
    unfold create_file. rewrite Hp.
    destruct (parent_entry w p) as [[[|]|]|]; try discriminate.
    eexists _, _. repeat split.
    + unfold lookup_path. rewrite Hp. simpl. apply lookup_insert_eq.
    + unfold file_bytes. simpl. now rewrite lookup_insert_eq.
Qed.

Lemma lookup_path_write_end w i text p :
  lookup_path (write_end i text w) p = lookup_path w p.
Proof. reflexivity. Qed.

Lemma file_bytes_write_end w i text :
  file_bytes (write_end i text w) i = file_bytes w i +:+ text.
Proof. unfold write_end. apply file_bytes_set_inode. Qed.

Lemma makedirs_empty w : makedirs w EmptyString = (Raise FileNotFoundError, w).
Proof. reflexivity. Qed.

(** *** Streams *)

Lemma Open_regular lib h w i :
  lookup_path w (Path h) = Some (Reg i) ->
  Open lib h w = (Return Self, (mkFile (Path h) (Some (Stream i 0 false)), w)).
Proof.
  intros L. unfold Open, bind, Exists, get_path, inspect, try_except,
    open_for_reading, syscall, set_content, ret.
  cbn. rewrite (path_exists_regular _ _ _ L). cbn.
  unfold open_read. rewrite L. reflexivity.
Qed.

Lemma Read_open h w st :
  Content h = Some st -> s_closed st = false ->
  Read h w = (Return (Some (universal_newlines (unread w st))),
              (mkFile (Path h) (Some (at_eof w st)), w)).
Proof.
  intros C O. unfold Read, bind, get_content, ret, read_text.
  cbn. rewrite C. cbn. rewrite O. reflexivity.
Qed.

Lemma json_load_open h w st :
  Content h = Some st -> s_closed st = false ->
  json_load h w = (Json.loads (universal_newlines (unread w st)),
                   (mkFile (Path h) (Some (at_eof w st)), w)).
Proof.
  intros C O. unfold json_load, bind, get_content, of_outcome, read_text.
  cbn. rewrite C. cbn. rewrite O. reflexivity.
Qed.

Lemma unread_start w i :
  unread w (Stream i 0 false) = file_bytes w i.
Proof. reflexivity. Qed.

(** *** Writing *)

Lemma with_open_trunc_writable {A} (body : nat -> M A) h w :
  writable w (Path h) = true ->
  exists i w', with_open open_trunc body h w = body i h w'
    /\ lookup_path w' (Path h) = Some (Reg i)
    /\ file_bytes w' i = EmptyString
    /\ stdout w' = stdout w.
Proof.
  intros Hw. destruct (open_trunc_writable _ _ Hw) as (i & w' & E & L & B & S).
  exists i, w'. repeat split; try assumption.
  unfold with_open, bind, get_path, syscall. cbn. rewrite E. reflexivity.
Qed.

Lemma open_trunc_raises w p e w' :
  open_trunc w p = (Raise e, w') ->
  w' = w /\ writable w p = false /\
  (e = FileNotFoundError \/ e = IsADirectoryError \/
   e = PermissionError \/ e = NotADirectoryError).
Proof.
  unfold open_trunc, writable, create_file.
  destruct (lookup_path w p) as [[d|i]|]; [| discriminate |].
  - intros [= <- <-]. auto.
  - destruct (is_empty p); [intros [= <- <-]; auto|].
    destruct (parent_entry w p) as [[[|]|]|]; try discriminate;
      intros [= <- <-]; cbn; auto 7.
Qed.


(** *** Overwrite, then Read *)

Lemma Overwrite_two_lines a b h w i :
  lookup_path w (Path h) = Some (Reg i) ->
  Overwrite [PyStr a; PyStr b] h w =
    (Return Self,
     (h, write_end i (b +:+ Chars.str1 Chars.LF)
           (write_end i (a +:+ Chars.str1 Chars.LF) (set_inode i EmptyString w)))).
Proof.
  intros L. unfold Overwrite, with_open, bind, get_path, syscall, open_trunc.
  cbn. rewrite L. reflexivity.
Qed.

(** C5, as the code has it: a handle whose stream is open on the path's
    file and has read nothing yet gives the two lines back. *)
Theorem Overwrite_then_Read (h : File) (w : world) (st : stream) :
  Content h = Some st ->
  s_closed st = false ->
  s_pos st = 0 ->
  lookup_path w (Path h) = Some (Reg (s_ino st)) ->
  fst ((Overwrite [PyStr "a"; PyStr "b"] ;; Read) h w)
  = Return (Some ("a" +:+ Chars.str1 Chars.LF +:+ "b" +:+ Chars.str1 Chars.LF)).
Proof.
  intros C O P L.
  rewrite (bind_return _ _ _ _ _ _ _ (Overwrite_two_lines "a" "b" h w _ L)).
  rewrite (Read_open _ _ _ C O). cbn [fst]. do 2 f_equal.
  unfold unread. rewrite P.
  rewrite !file_bytes_write_end, file_bytes_set_inode. reflexivity.
Qed.

(** The claim C5 on a handle built for a path that is not there: after
    [Overwrite] the file holds the two lines, but the handle has no
    stream and [Read] gives the absent result. *)
Lemma Overwrite_then_Read_counterexample :
  new [PyStr "data/new.txt"] Sample.world0 = (Return Sample.fresh, Sample.world0)
  /\ fst ((Overwrite [PyStr "a"; PyStr "b"] ;; Read) Sample.fresh Sample.world0)
     = Return None.
Proof. split; vm_compute; reflexivity. Qed.

Lemma Overwrite_then_Read_witness :
  fst ((Overwrite [PyStr "a"; PyStr "b"] ;; Read) Sample.notes Sample.world0)
  = Return (Some ("a" +:+ Chars.str1 Chars.LF +:+ "b" +:+ Chars.str1 Chars.LF)).
Proof.
  apply (Overwrite_then_Read Sample.notes Sample.world0 (Stream 0 0 false));
    vm_compute; reflexivity.
Defined.

(** *** Construction *)

Lemma mapM_str_arg (ps : list string) : mapM str_arg (map PyStr ps) = Some ps.
Proof.
  induction ps as [|p ps IH]; [reflexivity|].
  simpl. rewrite IH. reflexivity.
Qed.

Lemma new_eq path p w :
  path_of_segments path = Return p ->
  new path w =
    if path_exists w p
    then match open_read w p with
         | Return f => (Return (mkFile p (Some f)), w)
         | Raise e => (Raise e, w)
         end
    else (Return (mkFile p None), w).
Proof.
  intros E. unfold new, init, bind, of_outcome, Exists, open_for_reading,
    set_path, set_content, get_path, inspect, syscall, ret.
  rewrite E. cbn.
  destruct (path_exists w p); [|reflexivity].
  cbn. now destruct (open_read w p).
Qed.

(** C2, as the code has it: the segments are joined by [os.path.join], a
    first segment [None] gives the empty path, and the new handle holds
    a text stream at offset 0 when the path is a regular file and no
    stream when the path does not exist. *)
Theorem construction_joins_and_opens (w : world) :
  (forall a ps, path_of_segments (PyStr a :: map PyStr ps) = Return (join a ps))
  /\ (forall rest, path_of_segments (PyNone :: rest) = Return EmptyString)
  /\ (forall path p, path_of_segments path = Return p ->
        path_exists w p = false ->
        new path w = (Return (mkFile p None), w))
  /\ (forall path p i, path_of_segments path = Return p ->
        lookup_path w p = Some (Reg i) ->
        new path w = (Return (mkFile p (Some (Stream i 0 false))), w)).
Proof.
  repeat split.
  - intros a ps. simpl. now rewrite mapM_str_arg.
  - intros path p E N. rewrite (new_eq _ _ _ E), N. reflexivity.
  - intros path p i E L. rewrite (new_eq _ _ _ E).
    rewrite (path_exists_regular _ _ _ L). unfold open_read. now rewrite L.
Qed.

(** The claim C2 at its stated edge: with no segment the constructor
    raises instead of taking the empty path, and on a directory, which
    exists, it raises instead of holding a stream. *)
Lemma construction_counterexample :
  new [] Sample.world0 = (Raise IndexError, Sample.world0)
  /\ path_exists Sample.world0 "data" = true
  /\ new [PyStr "data"] Sample.world0 = (Raise IsADirectoryError, Sample.world0).
Proof. repeat split; vm_compute; reflexivity. Qed.

Lemma construction_witness :
  path_of_segments [PyStr "data"; PyStr "notes.txt"] = Return "data/notes.txt"
  /\ new [PyStr "data"; PyStr "notes.txt"] Sample.world0
     = (Return Sample.notes, Sample.world0)
  /\ new [PyStr "data"; PyStr "new.txt"] Sample.world0
     = (Return Sample.fresh, Sample.world0).
Proof.
  destruct (construction_joins_and_opens Sample.world0) as (J & _ & N & O).
  split; [exact (J "data" ["notes.txt"])|]. split.
  - apply (O _ "data/notes.txt" 0); [exact (J "data" ["notes.txt"]) | vm_compute; reflexivity].
  - apply (N _ "data/new.txt"); [exact (J "data" ["new.txt"]) | vm_compute; reflexivity].
Defined.

(** *** Create *)

(** C6 at the failing input: for a path without a directory part
    [GetDirname] is empty, [os.makedirs] refuses the empty name, and
    [Create] raises before any file is made. *)
Theorem Create_bare_name_raises (h : File) (w : world) :
  dirname (Path h) = EmptyString ->
  Create h w = (Raise FileNotFoundError, (h, w)).
Proof.
  intros D. unfold Create, GetDirname, bind, get_path, ret, syscall.
  rewrite D. reflexivity.
Qed.

Lemma Create_bare_name_witness :
  dirname "foo.txt" = EmptyString
  /\ Create (mkFile "foo.txt" None) Sample.world0
     = (Raise FileNotFoundError, (mkFile "foo.txt" None, Sample.world0)).
Proof.
  split; [reflexivity|].
  apply (Create_bare_name_raises (mkFile "foo.txt" None)). reflexivity.
Defined.

(** Where the path has a directory part [Create] does what its
    documentation says: here the chain [a/b] is made, then the file, and
    a second call changes nothing. *)
Example Create_in_directory :
  let h := mkFile "a/b/c.txt" None in
  let r := Create h Sample.world0 in
  fst r = Return Self
  /\ fst ((Create ;; Exists) h Sample.world0) = Return true
  /\ Create h (snd (snd r)) = (Return Self, snd r).
Proof. repeat split; vm_compute; reflexivity. Qed.

(** *** ReadAsJson *)

(** C10: without a content stream [ReadAsJson] raises an attribute
    error, which its handler does not catch; whatever [json.load] raises,
    only a JSON decode error is turned into the absent result. *)
Theorem ReadAsJson_without_stream_raises (h : File) (w : world) :
  Content h = None ->
  ReadAsJson h w = (Raise AttributeError, (h, w))
  /\ (forall (h' : File) (w' : world) (e : exn),
        fst (json_load h' w') = Raise e ->
        fst (ReadAsJson h' w') =
          if exn_eqb e JSONDecodeError then Return PyNone else Raise e).
Proof.
  intros C. split.
  - unfold ReadAsJson, try_except, json_load, bind, get_content, raise.
    rewrite C. reflexivity.
  - intros h' w' e. unfold ReadAsJson, try_except.
    destruct (json_load h' w') as [[v|e'] [h'' w'']]; simpl; [discriminate|].
    intros [= ->]. now destruct e.
Qed.

Lemma ReadAsJson_without_stream_witness :
  ReadAsJson Sample.fresh Sample.world0
  = (Raise AttributeError, (Sample.fresh, Sample.world0)).
Proof.
  apply (ReadAsJson_without_stream_raises Sample.fresh Sample.world0).
  reflexivity.
Defined.

(** *** json.dump: when it fails *)

(** Induction on a value, with the property at hand for the values a
    container holds. *)
Lemma pyval_nested_ind (P : pyval -> Prop)
    (HNone : P PyNone)
    (HBool : forall b, P (PyBool b))
    (HInt : forall z, P (PyInt z))
    (HFloat : forall r, P (PyFloat r))
    (HStr : forall s, P (PyStr s))
    (HList : forall l, Forall P l -> P (PyList l))
    (HTuple : forall l, Forall P l -> P (PyTuple l))
    (HDict : forall items, Forall (fun kv => P (snd kv)) items -> P (PyDict items))
    (HObject : forall c, P (PyObject c)) :
  forall v, P v.
Proof.
  fix IH 1. intros [ | b | z | r | s | l | l | items | c].
  - exact HNone.
  - apply HBool.
  - apply HInt.
  - apply HFloat.
  - apply HStr.
  - apply HList. revert l. fix IHl 1.
    intros [|x l]; constructor; [apply IH | apply IHl].
  - apply HTuple. revert l. fix IHl 1.
    intros [|x l]; constructor; [apply IH | apply IHl].
  - apply HDict. revert items. fix IHl 1.
    intros [|[k x] l]; constructor; [apply IH | apply IHl].
  - apply HObject.
Qed.

Lemma snd_gen_seq (a b : Json.gen) :
  snd (Json.gen_seq a b) = match snd a with None => snd b | Some e => Some e end.
Proof. now destruct a as [s [e|]]. Qed.

Lemma fst_gen_seq_ok (a b : Json.gen) :
  snd a = None -> fst (Json.gen_seq a b) = fst a +:+ fst b.
Proof. destruct a as [s [e|]]; [discriminate | reflexivity]. Qed.

Lemma scalar_text_serializable v t :
  Json.scalar_text v = Some t -> Json.serializable v = true.
Proof. now destruct v. Qed.

Section EncodeLoops.
Variable enc : pyval -> Json.gen.
Variable sep : string.

Lemma encode_values_failure l buf :
  Forall (fun v => snd (enc v) = failure_of (Json.serializable v)) l ->
  snd (Json.encode_values enc sep l buf) = failure_of (forallb Json.serializable l).
Proof.
  intros F. revert buf. induction F as [|x l Hx _ IH]; intros buf; [reflexivity|].
  cbn [Json.encode_values forallb]. rewrite snd_gen_seq.
  destruct (Json.scalar_text x) as [t|] eqn:T.
  - rewrite (scalar_text_serializable _ _ T). cbn. apply IH.
  - rewrite snd_gen_seq. cbn [Json.yield snd]. rewrite Hx.
    destruct (Json.serializable x); cbn; [apply IH | reflexivity].
Qed.

Lemma encode_items_failure items first :
  Forall (fun kv => snd (enc (snd kv)) = failure_of (Json.serializable (snd kv))) items ->
  snd (Json.encode_items enc sep items first)
  = failure_of (forallb (fun kv => match Json.key_text (fst kv) with
                                   | Some _ => Json.serializable (snd kv)
                                   | None => false
                                   end) items).
Proof.
  intros F. revert first.
  induction F as [|[k x] l Hx _ IH]; intros first; [reflexivity|].
  cbn [Json.encode_items forallb fst snd] in *.
  destruct (Json.key_text k) as [kt|]; [|reflexivity].
  rewrite !snd_gen_seq. cbn [Json.yield snd].
  destruct (Json.scalar_text x) as [t|] eqn:T.
  - rewrite (scalar_text_serializable _ _ T). cbn. apply IH.
  - rewrite Hx. destruct (Json.serializable x); cbn; [apply IH | reflexivity].
Qed.

End EncodeLoops.

(** [_iterencode] ends with a type error exactly on a value that holds,
    at some depth, an opaque object or a key that is not a scalar. *)
Lemma iterencode_failure v :
  forall level, snd (Json.iterencode v level) = failure_of (Json.serializable v).
Proof.
  revert v. apply (pyval_nested_ind (fun v => forall level,
    snd (Json.iterencode v level) = failure_of (Json.serializable v)));
    try (intros; reflexivity).
  - intros [|] level; reflexivity.
  - intros l IH level. destruct l as [|x l]; [reflexivity|].
    change (snd (Json.gen_seq
                   (Json.encode_values (fun v => Json.iterencode v (S level))
                      (Json.item_separator +:+ Json.newline_indent (S level))
                      (x :: l) ("[" +:+ Json.newline_indent (S level)))
                   (Json.gen_seq (Json.yield (Json.newline_indent level)) (Json.yield "]")))
            = failure_of (forallb Json.serializable (x :: l))).
    rewrite snd_gen_seq, encode_values_failure.
    + now destruct (forallb Json.serializable (x :: l)).
    + eapply Forall_impl; [exact IH|]. intros v Hv. apply Hv.
  - intros l IH level. destruct l as [|x l]; [reflexivity|].
    change (snd (Json.gen_seq
                   (Json.encode_values (fun v => Json.iterencode v (S level))
                      (Json.item_separator +:+ Json.newline_indent (S level))
                      (x :: l) ("[" +:+ Json.newline_indent (S level)))
                   (Json.gen_seq (Json.yield (Json.newline_indent level)) (Json.yield "]")))
            = failure_of (forallb Json.serializable (x :: l))).
    rewrite snd_gen_seq, encode_values_failure.
    + now destruct (forallb Json.serializable (x :: l)).
    + eapply Forall_impl; [exact IH|]. intros v Hv. apply Hv.
  - intros items IH level. destruct items as [|kv items]; [reflexivity|].
    change (snd (Json.gen_seq (Json.yield "{")
                  (Json.gen_seq (Json.yield (Json.newline_indent (S level)))
                  (Json.gen_seq
                     (Json.encode_items (fun v => Json.iterencode v (S level))
                        (Json.item_separator +:+ Json.newline_indent (S level))
                        (kv :: items) true)
                     (Json.gen_seq (Json.yield (Json.newline_indent level))
                        (Json.yield "}")))))
            = failure_of (Json.serializable (PyDict (kv :: items)))).
    rewrite !snd_gen_seq. cbn [Json.yield snd].
    rewrite encode_items_failure.
    + change (Json.serializable (PyDict (kv :: items)))
        with (forallb (fun kv => match Json.key_text (fst kv) with
                                 | Some _ => Json.serializable (snd kv)
                                 | None => false
                                 end) (kv :: items)).
      now destruct (forallb _ (kv :: items)).
    + eapply Forall_impl; [exact IH|]. intros v Hv. apply Hv.
Qed.


(** *** WriteAsJson *)


(** Past its guard, [WriteAsJson] is what opening the file allows and
    what [json.dump] yields. *)
Lemma WriteAsJson_past_guard v h w :
  json_type v = true ->
  WriteAsJson v h w =
    match open_trunc w (Path h) with
    | (Return f, w') =>
        (match snd (Json.dump v) with
         | None => Return Self
         | Some e => Raise e
         end, (h, write_end f (fst (Json.dump v)) w'))
    | (Raise e, w') => (Raise e, (h, w'))
    end.
Proof.
  intros G. unfold WriteAsJson, with_open, json_dump, bind, get_path, syscall,
    write, raise, ret.
  rewrite G. cbn.
  destruct (open_trunc w (Path h)) as [[f|e] w']; [|reflexivity].
  now destruct (Json.dump v) as [text [e|]].
Qed.





(** *** The JSON round trip *)

Lemma ReadAsJson_open h w st :
  Content h = Some st -> s_closed st = false ->
  fst (ReadAsJson h w) =
    match Json.loads (universal_newlines (unread w st)) with
    | Raise JSONDecodeError => Return PyNone
    | r => r
    end.
Proof.
  intros C O. unfold ReadAsJson, try_except.
  rewrite (json_load_open _ _ _ C O).
  destruct (Json.loads _) as [v|e]; [reflexivity|]. now destruct e.
Qed.

Lemma json_round_trip_via lib v h w :
  json_type v = true ->
  snd (Json.dump v) = None ->
  Json.loads (universal_newlines (fst (Json.dump v))) = Return v ->
  writable w (Path h) = true ->
  fst ((WriteAsJson v ;; Open lib ;; ReadAsJson) h w) = Return v.
Proof.
  intros G D R W.
  pose proof (WriteAsJson_past_guard v h w G) as E.
  destruct (open_trunc_writable _ _ W) as (i & w' & Eo & L & B & _).
  rewrite Eo, D in E.
  rewrite (bind_return _ _ _ _ _ _ _ E).
  rewrite (bind_return _ _ _ _ _ _ _
             (Open_regular lib h _ i (eq_trans (lookup_path_write_end _ _ _ _) L))).
  rewrite (ReadAsJson_open _ _ (Stream i 0 false)); [|reflexivity..].
  rewrite unread_start, file_bytes_write_end, B.
  change (EmptyString +:+ fst (Json.dump v)) with (fst (Json.dump v)).
  now rewrite R.
Qed.

(** C3: each of the four values comes back from the file it was written
    to, whatever the handle held before, when the path can be opened for
    writing. *)
Theorem json_round_trip (lib : stdlib) (v : pyval) (h : File) (w : world) :
  In v [PyNone; PyInt 42; PyStr "s";
        PyDict [(PyStr "k", PyList [PyInt 1; PyInt 2; PyInt 3])]] ->
  writable w (Path h) = true ->
  fst ((WriteAsJson v ;; Open lib ;; ReadAsJson) h w) = Return v.
Proof.
  intros V W.
  destruct V as [<- | [<- | [<- | [<- | []]]]];
    apply json_round_trip_via; try assumption; vm_compute; reflexivity.
Qed.

Lemma json_round_trip_witness :
  let v := PyDict [(PyStr "k", PyList [PyInt 1; PyInt 2; PyInt 3])] in
  fst ((WriteAsJson v ;; Open Sample.byte_count ;; ReadAsJson)
         Sample.fresh Sample.world0) = Return v.
Proof.
  apply (json_round_trip Sample.byte_count _ Sample.fresh Sample.world0).
  - simpl. tauto.
  - vm_compute. reflexivity.
Defined.

(** *** WriteAsCsv and ReadAsCsv *)

Lemma mapM_list_arg_lists (lists : list (list pyval)) :
  mapM list_arg (map PyList lists) = Some lists.
Proof.
  induction lists as [|l lists IH]; [reflexivity|].
  simpl. rewrite IH. reflexivity.
Qed.




Lemma WriteAsCsv_past_guard lib lists h w :
  WriteAsCsv lib (PyList (map PyList lists)) h w =
    match open_trunc w (Path h) with
    | (Return f, w') =>
        (Return Self, (h, write_end f (Csv.writerows (object_str lib) lists) w'))
    | (Raise e, w') =>
        match e with
        | FileNotFoundError | CsvError =>
            (Return Self,
             (h, print ("Error writing file as CSV: " +:+ error_str lib e (Path h)) w'))
        | _ => (Raise e, (h, w'))
        end
    end.
Proof.
  unfold WriteAsCsv, with_open, try_except, bind, get_path, syscall, write,
    say, ret. cbn.
  rewrite mapM_list_arg_lists.
  destruct (open_trunc w (Path h)) as [[f|e] w']; [reflexivity|].
  now destruct e.
Qed.

(** Where the file cannot be found, [WriteAsCsv] reports it on the
    output and returns the handle: nothing is written. *)
Lemma WriteAsCsv_not_found lib lists h w :
  fst (open_trunc w (Path h)) = Raise FileNotFoundError ->
  WriteAsCsv lib (PyList (map PyList lists)) h w =
    (Return Self,
     (h, print ("Error writing file as CSV: "
                +:+ error_str lib FileNotFoundError (Path h)) w)).
Proof.
  intros E. rewrite WriteAsCsv_past_guard.
  destruct (open_trunc w (Path h)) as [[f|e] w'] eqn:Eo; [discriminate|].
  cbn in E. injection E as ->.
  now destruct (open_trunc_raises _ _ _ _ Eo) as (-> & _).
Qed.

Lemma ReadAsCsv_regular lib h w i rows :
  lookup_path w (Path h) = Some (Reg i) ->
  Csv.read (universal_newlines (file_bytes w i)) = Return rows ->
  ReadAsCsv lib h w = (Return (Some rows), (h, w)).
Proof.
  intros L R. unfold ReadAsCsv, try_except, bind, get_path, open_for_reading,
    syscall, inspect, of_outcome, ret, open_read.
  cbn. rewrite L. cbn. unfold unread. cbn. fold (file_bytes w i).
  unfold Csv.read, Csv.readlines in R. rewrite R. reflexivity.
Qed.

(** C7: the two rows come back from the file they were written to, when
    the path can be opened for writing. *)
Theorem csv_round_trip (lib : stdlib) (h : File) (w : world) :
  writable w (Path h) = true ->
  fst ((WriteAsCsv lib (PyList [PyList [PyStr "a"; PyStr "b"];
                                PyList [PyStr "1"; PyStr "2"]]) ;;
        ReadAsCsv lib) h w)
  = Return (Some [["a"; "b"]; ["1"; "2"]]).
Proof.
  intros W.
  pose proof (WriteAsCsv_past_guard lib
                [[PyStr "a"; PyStr "b"]; [PyStr "1"; PyStr "2"]] h w) as E.
  destruct (open_trunc_writable _ _ W) as (i & w' & Eo & L & B & _).
  rewrite Eo in E. cbn [map] in E.
  rewrite (bind_return _ _ _ _ _ _ _ E).
  erewrite ReadAsCsv_regular; [reflexivity | |].
  - rewrite lookup_path_write_end. exact L.
  - rewrite file_bytes_write_end, B. vm_compute. reflexivity.
Qed.

Lemma csv_round_trip_witness :
  fst ((WriteAsCsv Sample.byte_count
          (PyList [PyList [PyStr "a"; PyStr "b"]; PyList [PyStr "1"; PyStr "2"]]) ;;
        ReadAsCsv Sample.byte_count) Sample.fresh Sample.world0)
  = Return (Some [["a"; "b"]; ["1"; "2"]]).
Proof.
  apply (csv_round_trip Sample.byte_count Sample.fresh Sample.world0).
  vm_compute. reflexivity.
Defined.

(** *** Delete *)

Lemma Delete_missing h w :
  path_exists w (Path h) = false -> Delete h w = (Return Self, (h, w)).
Proof.
  intros N. unfold Delete, bind, Exists, get_path, inspect, ret.
  cbn. now rewrite N.
Qed.

Lemma Delete_regular h w i st :
  lookup_path w (Path h) = Some (Reg i) ->
  Content h = Some st ->
  Delete h w =
    (Return Self,
     (mkFile (Path h) (Some (close st)),
      match parent_entry w (Path h) with
      | Some (Dir false) => print ("Permission error deleting file: " +:+ Path h) w
      | _ => set_names (delete (Path h)) w
      end)).
Proof.
  intros L C. unfold Delete, try_except, bind, Exists, get_path, get_content,
    set_content, inspect, syscall, say, ret, remove.
  cbn. rewrite (path_exists_regular _ _ _ L). cbn. rewrite C. cbn. rewrite L.
  now destruct (parent_entry w (Path h)) as [[[|]|]|].
Qed.

Lemma Delete_without_stream h w :
  path_exists w (Path h) = true -> Content h = None ->
  Delete h w = (Raise AttributeError, (h, w)).
Proof.
  intros E C. unfold Delete, bind, Exists, get_path, get_content, inspect, raise.
  cbn. rewrite E. cbn. now rewrite C.
Qed.

Lemma path_exists_deleted w p : path_exists (set_names (delete p) w) p = false.
Proof.
  unfold path_exists, lookup_path, set_names. cbn.
  destruct (is_empty p); [reflexivity|]. now rewrite lookup_delete_eq.
Qed.

(** C1, as the code has it: on a path that does not exist [Delete]
    returns the handle and leaves everything, the output included, as it
    was; on a regular file whose handle holds a stream it closes the
    stream, then removes the file or, where the directory refuses,
    reports the permission failure on the output, and returns the
    handle. *)
Theorem Delete_returns_self (h : File) (w : world) :
  (path_exists w (Path h) = false -> Delete h w = (Return Self, (h, w)))
  /\ (forall i st,
        lookup_path w (Path h) = Some (Reg i) ->
        Content h = Some st ->
        exists w',
          Delete h w = (Return Self, (mkFile (Path h) (Some (close st)), w'))
          /\ ((parent_entry w (Path h) <> Some (Dir false)
               /\ w' = set_names (delete (Path h)) w
               /\ path_exists w' (Path h) = false)
              \/ (parent_entry w (Path h) = Some (Dir false)
                  /\ w' = print ("Permission error deleting file: " +:+ Path h) w))).
Proof.
  split; [apply Delete_missing|].
  intros i st L C. rewrite (Delete_regular _ _ _ _ L C).
  eexists. split; [reflexivity|].
  destruct (parent_entry w (Path h)) as [[[|]|]|];
    first [ right; split; reflexivity
          | left; split; [discriminate | split; [reflexivity | apply path_exists_deleted]] ].
Qed.

(** The claim C1 on a handle whose file was made after the handle was
    built: the path exists, no stream is held, and [Delete] raises.  And
    on a path that does not exist nothing is written to the output. *)
Lemma Delete_counterexample :
  fst ((Create ;; Exists) Sample.fresh Sample.world0) = Return true
  /\ fst ((Create ;; Delete) Sample.fresh Sample.world0) = Raise AttributeError
  /\ path_exists Sample.world0 (Path Sample.fresh) = false
  /\ stdout (snd (snd (Delete Sample.fresh Sample.world0))) = [].
Proof. repeat split; vm_compute; reflexivity. Qed.

Lemma Delete_returns_self_witness :
  Delete Sample.fresh Sample.world0 = (Return Self, (Sample.fresh, Sample.world0))
  /\ exists w',
       Delete Sample.notes Sample.world0
       = (Return Self, (mkFile "data/notes.txt" (Some (Stream 0 0 true)), w'))
       /\ path_exists w' "data/notes.txt" = false.
Proof.
  split.
  - apply (Delete_returns_self Sample.fresh Sample.world0). vm_compute. reflexivity.
  - destruct (Delete_returns_self Sample.notes Sample.world0) as [_ D].
    destruct (D 0 (Stream 0 0 false)) as (w' & E & [(_ & _ & G) | (P & _)]).
    + vm_compute. reflexivity.
    + reflexivity.
    + exists w'. split; [exact E | exact G].
    + vm_compute in P. discriminate.
Defined.

(** *** Hash *)

Lemma Hash_regular lib algorithm h w bytes :
  content_at w (Path h) = Some bytes ->
  Hash lib algorithm h w = (digest lib algorithm bytes, (h, w)).
Proof.
  unfold content_at. intros C.
  destruct (lookup_path w (Path h)) as [[d|i]|] eqn:L; try discriminate.
  injection C as <-.
  unfold Hash, digest, try_except, bind, Exists, get_path, inspect, syscall,
    ret, raise, open_read.
  cbn. rewrite (path_exists_regular _ _ _ L). cbn. rewrite L. cbn.
  destruct (hashlib_new lib algorithm) as [h0|]; [|reflexivity]. cbn.
  change (unread w (Stream i 0 false)) with (file_bytes w i).
  now destruct (hexdigest lib _).
Qed.

(** C9: the digest depends on the bytes of the file and on the algorithm
    only, whichever handle and path they are read through, and [Hash]
    changes neither the handle nor the world, so that a second call on
    the same handle gives the same digest. *)
Theorem Hash_deterministic (lib : stdlib) (algorithm : string)
    (h1 h2 : File) (w1 w2 : world) (bytes : string) :
  content_at w1 (Path h1) = Some bytes ->
  content_at w2 (Path h2) = Some bytes ->
  fst (Hash lib algorithm h1 w1) = fst (Hash lib algorithm h2 w2)
  /\ snd (Hash lib algorithm h1 w1) = (h1, w1)
  /\ fst ((Hash lib algorithm ;; Hash lib algorithm) h1 w1)
     = fst (Hash lib algorithm h1 w1).
Proof.
  intros C1 C2.
  rewrite (Hash_regular lib algorithm _ _ _ C2).
  pose proof (Hash_regular lib algorithm _ _ _ C1) as E.
  unfold bind. rewrite E. cbn [fst snd]. repeat split.
  destruct (digest lib algorithm bytes); [now rewrite E | reflexivity].
Qed.

Lemma Hash_deterministic_witness :
  fst (Hash Sample.byte_count "count" Sample.notes Sample.world0) = Return (Some "5")
  /\ fst (Hash Sample.byte_count "count" Sample.notes Sample.world0)
     = fst (Hash Sample.byte_count "count" (mkFile "data/notes.txt" None)
              Sample.world0).
Proof.
  split; [vm_compute; reflexivity|].
  apply (Hash_deterministic Sample.byte_count "count" Sample.notes
           (mkFile "data/notes.txt" None) Sample.world0 Sample.world0 "hello");
    vm_compute; reflexivity.
Defined.

(** ** Further properties of the class *)

(** *** Texts *)

Lemma str_app_cons c (s t : string) : String c s +:+ t = String c (s +:+ t).
Proof. reflexivity. Qed.

Lemma str_app_empty_r (s : string) : s +:+ EmptyString = s.
Proof. induction s as [|c s IH]; [reflexivity|]. now rewrite str_app_cons, IH. Qed.

Lemma str_app_assoc (a b c : string) : (a +:+ b) +:+ c = a +:+ (b +:+ c).
Proof. induction a as [|x a IH]; [reflexivity|]. now rewrite !str_app_cons, IH. Qed.

Lemma str_length_app (a b : string) :
  String.length (a +:+ b) = String.length a + String.length b.
Proof. induction a as [|x a IH]; [reflexivity|]. rewrite str_app_cons. simpl. now rewrite IH. Qed.


Lemma str_take_drop n (s : string) : substring 0 n s +:+ string_drop n s = s.
Proof.
  revert n. induction s as [|c s IH]; intros [|n]; try reflexivity.
  simpl. rewrite str_app_cons. now rewrite IH.
Qed.

Lemma str_length_drop n (s : string) :
  String.length (string_drop n s) = String.length s - n.
Proof.
  revert n. induction s as [|c s IH]; intros [|n]; simpl; try reflexivity. apply IH.
Qed.

Lemma universal_newlines_no_cr (s : string) :
  has_byte Chars.CR s = false -> universal_newlines s = s.
Proof.
  induction s as [|c s IH]; [reflexivity|].
  simpl. intros H. apply orb_false_iff in H as [Hc Hs].
  unfold Chars.CR in Hc. rewrite Hc. now rewrite (IH Hs).
Qed.

(** *** Reading through the held stream *)


Lemma at_eof_open w st : s_closed st = false -> s_closed (at_eof w st) = false.
Proof. now intros. Qed.






(** X3.  [Close] forgets the stream, so that the reads give the absent
    result; leaving a [with] block closes the stream but keeps it, so
    that [Read] raises a value error, and entering again does not reopen
    it. *)
Theorem Close_forgets_exit_keeps (lib : stdlib) (h : File) (w : world) (st : stream) :
  Content h = Some st ->
  (Close ;; Read) h w = (Return None, (mkFile (Path h) None, w))
  /\ fst ((exit_ ;; Read) h w) = Raise ValueError
  /\ fst ((exit_ ;; enter lib ;; Read) h w) = Raise ValueError
  /\ fst ((exit_ ;; ReadAsJson) h w) = Raise ValueError.
Proof.
  intros C.
  unfold Close, exit_, enter, Read, ReadAsJson, json_load, try_except, bind,
    get_content, set_content, ret, raise, read_text.
  cbn. rewrite C. cbn. repeat split; reflexivity.
Qed.

Lemma Close_forgets_exit_keeps_witness :
  fst ((exit_ ;; enter Sample.byte_count ;; Read) Sample.notes Sample.world0)
  = Raise ValueError.
Proof.
  apply (Close_forgets_exit_keeps Sample.byte_count Sample.notes Sample.world0
           (Stream 0 0 false)).
  reflexivity.
Defined.

(** *** ReadLines *)





(** *** Append and Overwrite *)

Lemma wrote_nothing f w : wrote f EmptyString w w.
Proof. repeat split. now rewrite str_app_empty_r. Qed.

Lemma wrote_more f t1 t2 w w' :
  wrote f t1 w w' -> wrote f (t1 +:+ t2) w (write_end f t2 w').
Proof.
  intros (N & S & I & B). repeat split; try assumption.
  now rewrite file_bytes_write_end, B, str_app_assoc.
Qed.

Lemma write_lines_strs f (lines : list string) h w0 w :
  forall pre, wrote f pre w0 w ->
  exists w', write_lines f (map PyStr lines) h w = (Return tt, (h, w'))
    /\ wrote f (pre +:+ lines_text lines) w0 w'.
Proof.
  revert w. induction lines as [|l lines IH]; intros w pre W.
  - exists w. split; [reflexivity|]. cbn [lines_text]. rewrite str_app_empty_r. exact W.
  - cbn [map app write_lines lines_text]. unfold bind, write at 1. cbn.
    destruct (IH _ _ (wrote_more f pre (l +:+ Chars.str1 Chars.LF) _ _ W))
      as (w' & E & W').
    exists w'. split; [exact E|]. rewrite !str_app_assoc in W'. exact W'.
Qed.

Lemma write_lines_stops f (lines : list string) (v : pyval) rest h w0 w :
  str_arg v = None ->
  forall pre, wrote f pre w0 w ->
  exists w', write_lines f (map PyStr lines ++ v :: rest) h w
             = (Raise TypeError, (h, w'))
    /\ wrote f (pre +:+ lines_text lines) w0 w'.
Proof.
  intros V. revert w. induction lines as [|l lines IH]; intros w pre W.
  - exists w. split; [now destruct v|]. cbn [lines_text]. rewrite str_app_empty_r. exact W.
  - cbn [map app write_lines lines_text]. unfold bind, write at 1. cbn.
    destruct (IH _ _ (wrote_more f pre (l +:+ Chars.str1 Chars.LF) _ _ W))
      as (w' & E & W').
    exists w'. split; [exact E|]. rewrite !str_app_assoc in W'. exact W'.
Qed.

Lemma open_append_writable w p :
  writable w p = true ->
  exists i w', open_append w p = (Return i, w')
    /\ lookup_path w' p = Some (Reg i)
    /\ file_bytes w' i = default EmptyString (content_at w p)
    /\ stdout w' = stdout w.
Proof.
  unfold writable, open_append, content_at. intros Hw.
  destruct (lookup_path w p) as [[d|i]|] eqn:L; try discriminate.
  - exists i, w. repeat split. exact L.
  - apply andb_prop in Hw as [Hp Hd]. apply negb_true_iff in Hp.
    unfold create_file. rewrite Hp.
    destruct (parent_entry w p) as [[[|]|]|]; try discriminate.
    eexists _, _. repeat split.
    + unfold lookup_path. rewrite Hp. simpl. apply lookup_insert_eq.
    + unfold file_bytes. simpl. now rewrite lookup_insert_eq.
Qed.

Lemma content_at_wrote w w' p i text :
  lookup_path w p = Some (Reg i) -> wrote i text w w' ->
  content_at w' p = Some (file_bytes w i +:+ text).
Proof.
  intros L (N & _ & _ & B). unfold content_at.
  assert (lookup_path w' p = Some (Reg i)) as ->
    by (unfold lookup_path in *; now rewrite N).
  now rewrite B.
Qed.

(** X5.  With lines that are all [str], [Overwrite] leaves the file
    holding exactly the lines, each followed by a line feed, and
    [Append] leaves it holding what it held (nothing, if it was not
    there) followed by them; both return the handle, untouched. *)
Theorem Overwrite_replaces_Append_extends (lines : list string) (h : File) (w : world) :
  writable w (Path h) = true ->
  (exists w', Overwrite (map PyStr lines) h w = (Return Self, (h, w'))
     /\ content_at w' (Path h) = Some (lines_text lines)
     /\ stdout w' = stdout w)
  /\ (exists w', Append (map PyStr lines) h w = (Return Self, (h, w'))
     /\ content_at w' (Path h)
        = Some (default EmptyString (content_at w (Path h)) +:+ lines_text lines)
     /\ stdout w' = stdout w).
Proof.
  intros W. split.
  - destruct (open_trunc_writable _ _ W) as (i & w1 & E & L & B & S).
    destruct (write_lines_strs i lines h w1 w1 _ (wrote_nothing i w1)) as (w' & Ew & Wr).
    exists w'. unfold Overwrite, with_open, bind, get_path, syscall, ret.
    cbn. rewrite E, Ew. split; [reflexivity|]. split.
    + rewrite (content_at_wrote _ _ _ _ _ L Wr), B. reflexivity.
    + destruct Wr as (_ & S' & _). now rewrite S'.
  - destruct (open_append_writable _ _ W) as (i & w1 & E & L & B & S).
    destruct (write_lines_strs i lines h w1 w1 _ (wrote_nothing i w1)) as (w' & Ew & Wr).
    exists w'. unfold Append, with_open, bind, get_path, syscall, ret.
    cbn. rewrite E, Ew. split; [reflexivity|]. split.
    + rewrite (content_at_wrote _ _ _ _ _ L Wr), B. reflexivity.
    + destruct Wr as (_ & S' & _). now rewrite S'.
Qed.

Lemma Overwrite_replaces_Append_extends_witness :
  exists w', Append [PyStr "a"; PyStr "b"] Sample.notes Sample.world0
             = (Return Self, (Sample.notes, w'))
    /\ content_at w' "data/notes.txt"
       = Some ("hello" +:+ lines_text ["a"; "b"])
    /\ stdout w' = stdout Sample.world0.
Proof.
  apply (Overwrite_replaces_Append_extends ["a"; "b"] Sample.notes Sample.world0).
  vm_compute. reflexivity.
Defined.

(** X6.  A line that is not a [str] stops [Overwrite] and [Append] with
    a type error once the file is open: [Overwrite] has then lost what
    the file held, and the lines before the offending one are written. *)
Theorem write_stops_at_bad_line (lines : list string) (v : pyval)
    (rest : list pyval) (h : File) (w : world) :
  str_arg v = None ->
  writable w (Path h) = true ->
  (exists w', Overwrite (map PyStr lines ++ v :: rest) h w = (Raise TypeError, (h, w'))
     /\ content_at w' (Path h) = Some (lines_text lines))
  /\ (exists w', Append (map PyStr lines ++ v :: rest) h w = (Raise TypeError, (h, w'))
     /\ content_at w' (Path h)
        = Some (default EmptyString (content_at w (Path h)) +:+ lines_text lines)).
Proof.
  intros V W. split.
  - destruct (open_trunc_writable _ _ W) as (i & w1 & E & L & B & S).
    destruct (write_lines_stops i lines v rest h w1 w1 V _ (wrote_nothing i w1))
      as (w' & Ew & Wr).
    exists w'. unfold Overwrite, with_open, bind, get_path, syscall, ret.
    cbn. rewrite E, Ew. split; [reflexivity|].
    rewrite (content_at_wrote _ _ _ _ _ L Wr), B. reflexivity.
  - destruct (open_append_writable _ _ W) as (i & w1 & E & L & B & S).
    destruct (write_lines_stops i lines v rest h w1 w1 V _ (wrote_nothing i w1))
      as (w' & Ew & Wr).
    exists w'. unfold Append, with_open, bind, get_path, syscall, ret.
    cbn. rewrite E, Ew. split; [reflexivity|].
    rewrite (content_at_wrote _ _ _ _ _ L Wr), B. reflexivity.
Qed.

Lemma write_stops_at_bad_line_witness :
  exists w', Overwrite [PyStr "a"; PyInt 1; PyStr "b"] Sample.notes Sample.world0
             = (Raise TypeError, (Sample.notes, w'))
    /\ content_at w' "data/notes.txt" = Some (lines_text ["a"]).
Proof.
  apply (write_stops_at_bad_line ["a"] (PyInt 1) [PyStr "b"] Sample.notes Sample.world0).
  - reflexivity.
  - vm_compute. reflexivity.
Defined.

(** *** os.makedirs and Create *)

Lemma split_eq p : split p = (dirname p, basename p).
Proof. unfold dirname, basename. now destruct (split p). Qed.

Lemma is_empty_false s : s <> EmptyString -> is_empty s = false.
Proof. now destruct s. Qed.

Lemma is_empty_true s : is_empty s = true -> s = EmptyString.
Proof. now destruct s. Qed.

Lemma path_isdir_exists w p : path_isdir w p = true -> path_exists w p = true.
Proof. unfold path_isdir, path_exists. now destruct (lookup_path w p) as [[]|]. Qed.

Lemma mkdir_outcome w name r w' :
  mkdir w name = (r, w') ->
  (r = Return tt /\ w' = set_names (insert name (Dir true)) w /\ is_empty name = false)
  \/ (exists e, r = Raise e /\ w' = w).
Proof.
  unfold mkdir. destruct (lookup_path w name).
  - intros [= <- <-]. right. eauto.
  - destruct (is_empty name) eqn:N; [intros [= <- <-]; right; eauto|].
    destruct (parent_entry w name) as [[[|]|]|]; intros [= <- <-]; eauto.
Qed.

Lemma mkdir_or_there w1 name w' :
  match mkdir w1 name with
  | (Raise e, w2) => if path_isdir w2 name then (Return tt, w2) else (Raise e, w2)
  | done => done
  end = (Return tt, w') ->
  path_isdir w' name = true.
Proof.
  destruct (mkdir w1 name) as [r w2] eqn:M.
  destruct (mkdir_outcome _ _ _ _ M) as [(-> & -> & N) | (e & -> & ->)].
  - intros [= <-]. unfold path_isdir, lookup_path, set_names. cbn.
    rewrite N. now rewrite lookup_insert_eq.
  - destruct (path_isdir w1 name) eqn:P; [|discriminate]. now intros [= <-].
Qed.

Lemma makedirs_there w name :
  basename name <> EmptyString ->
  path_isdir w name = true ->
  dirname name = EmptyString \/ path_exists w (dirname name) = true ->
  makedirs w name = (Return tt, w).
Proof.
  intros B Dir Par.
  unfold makedirs. cbn [makedirs_fuel]. rewrite split_eq.
  rewrite (is_empty_false _ B). cbv beta iota. rewrite (is_empty_false _ B).
  assert (negb (is_empty (dirname name)) && negb false
          && negb (path_exists w (dirname name)) = false) as ->.
  { destruct Par as [-> | ->]; [reflexivity|]. now rewrite !andb_false_r. }
  unfold mkdir. pose proof Dir as Dir'. unfold path_isdir in Dir'.
  destruct (lookup_path w name) as [[b|]|]; try discriminate.
  now rewrite Dir.
Qed.

(** X7.  When [os.makedirs(name, exist_ok=True)] returns, the directory
    is there (names that end in a slash or in a dot component apart);
    and on a directory that is there it changes nothing. *)
Theorem makedirs_postcondition (w : world) (name : string) :
  basename name <> EmptyString ->
  basename name <> "." ->
  (forall w', makedirs w name = (Return tt, w') -> path_isdir w' name = true)
  /\ (path_isdir w name = true ->
      dirname name = EmptyString \/ path_exists w (dirname name) = true ->
      makedirs w name = (Return tt, w)).
Proof.
  intros B D. split; [|now apply makedirs_there].
  unfold makedirs. cbn [makedirs_fuel]. rewrite split_eq.
  rewrite (is_empty_false _ B). cbv beta iota. rewrite (is_empty_false _ B).
  rewrite (proj2 (String.eqb_neq _ _) D).
  intros w'.
  destruct (negb (is_empty (dirname name)) && negb false
            && negb (path_exists w (dirname name))).
  - destruct (makedirs_fuel _ w (dirname name)) as [[[]|e] w1].
    + apply mkdir_or_there.
    + destruct e; try discriminate. apply mkdir_or_there.
  - apply mkdir_or_there.
Qed.

Lemma makedirs_postcondition_witness :
  path_isdir (snd (makedirs Sample.world0 "x/y/z")) "x/y/z" = true
  /\ makedirs Sample.world0 "data" = (Return tt, Sample.world0).
Proof.
  destruct (makedirs_postcondition Sample.world0 "x/y/z") as [Made _];
    [vm_compute; discriminate | vm_compute; discriminate |].
  destruct (makedirs_postcondition Sample.world0 "data") as [_ There];
    [vm_compute; discriminate | vm_compute; discriminate |].
  split.
  - apply Made. vm_compute. reflexivity.
  - apply There; [vm_compute; reflexivity | left; reflexivity].
Defined.

(** *** Create and Recreate *)

Lemma settled_nonempty w d : path_isdir w d = true -> is_empty d = false.
Proof. unfold path_isdir, lookup_path. now destruct (is_empty d). Qed.

Lemma dirname_nonempty p : is_empty (dirname p) = false -> is_empty p = false.
Proof. now destruct p. Qed.

Lemma parent_entry_dirname w p :
  is_empty (dirname p) = false -> parent_entry w p = lookup_path w (dirname p).
Proof. unfold parent_entry, lookup_path. now intros ->. Qed.

(** The world after a new empty file was made at [p]. *)
Lemma Create_eq h w :
  settled w (dirname (Path h)) ->
  Create h w =
    match open_excl w (Path h) with
    | (Return _, w') | (Raise FileExistsError, w') => (Return Self, (h, w'))
    | (Raise e, w') => (Raise e, (h, w'))
    end.
Proof.
  intros (D & B & P).
  assert (dirname (dirname (Path h)) = EmptyString
          \/ path_exists w (dirname (dirname (Path h))) = true) as P'
    by (destruct P as [P | P]; [now left | right; now apply path_isdir_exists]).
  unfold Create, GetDirname, with_open, try_except, bind, get_path, syscall, ret.
  cbv beta iota. rewrite (makedirs_there _ _ B D P'). cbv beta iota.
  destruct (open_excl w (Path h)) as [[i|e] w']; [reflexivity|]. now destruct e.
Qed.

Lemma Create_new h w :
  settled w (dirname (Path h)) ->
  lookup_path w (Path h) = None ->
  lookup_path w (dirname (Path h)) = Some (Dir true) ->
  Create h w = (Return Self, (h, with_new_file (Path h) w)).
Proof.
  intros S N D. rewrite (Create_eq _ _ S).
  destruct S as (Dd & _ & _). pose proof (settled_nonempty _ _ Dd) as Ed.
  unfold open_excl, create_file. rewrite N, (dirname_nonempty _ Ed).
  now rewrite (parent_entry_dirname _ _ Ed), D.
Qed.

Lemma lookup_with_new_file w p q :
  is_empty p = false ->
  lookup_path (with_new_file p w) q
  = if String.eqb p q then Some (Reg (next_ino w)) else lookup_path w q.
Proof.
  intros E. unfold lookup_path, with_new_file. cbn.
  destruct (String.eqb_spec p q) as [<- | Ne].
  - rewrite E. apply lookup_insert_eq.
  - destruct (is_empty q); [reflexivity|]. now rewrite lookup_insert_ne.
Qed.

Lemma settled_with_new_file w p d :
  is_empty p = false -> lookup_path w p = None ->
  settled w d -> settled (with_new_file p w) d.
Proof.
  intros E N (D & B & P). split; [|split; [exact B|]].
  - unfold path_isdir in *. rewrite (lookup_with_new_file _ _ _ E).
    destruct (String.eqb_spec p d) as [Eq | _]; [|exact D].
    rewrite <- Eq in D. now rewrite N in D.
  - destruct P as [P | P]; [now left | right].
    unfold path_isdir in *. rewrite (lookup_with_new_file _ _ _ E).
    destruct (String.eqb_spec p (dirname d)) as [Eq | _]; [|exact P].
    rewrite <- Eq in P. now rewrite N in P.
Qed.

(** X8.  In a directory that is there, [Create] makes an empty file
    where the path names nothing and leaves alone what the path names
    already, so that a second call changes nothing; it returns the handle
    as it was: no stream is opened.  Where the directory refuses new
    entries it raises a permission error. *)
Theorem Create_in_directory_that_is_there (h : File) (w : world) :
  settled w (dirname (Path h)) ->
  (forall e, lookup_path w (Path h) = Some e -> Create h w = (Return Self, (h, w)))
  /\ (lookup_path w (Path h) = None ->
      lookup_path w (dirname (Path h)) = Some (Dir true) ->
      exists w', Create h w = (Return Self, (h, w'))
        /\ content_at w' (Path h) = Some EmptyString
        /\ stdout w' = stdout w
        /\ Create h w' = (Return Self, (h, w')))
  /\ (lookup_path w (Path h) = None ->
      lookup_path w (dirname (Path h)) = Some (Dir false) ->
      Create h w = (Raise PermissionError, (h, w))).
Proof.
  intros S. pose proof S as (Dd & _ & _).
  pose proof (settled_nonempty _ _ Dd) as Ed.
  pose proof (dirname_nonempty _ Ed) as Ep.
  split; [|split].
  - intros e L. rewrite (Create_eq _ _ S). unfold open_excl. now rewrite L.
  - intros N D. exists (with_new_file (Path h) w).
    split; [now apply Create_new|]. split; [|split; [reflexivity|]].
    + unfold content_at. rewrite (lookup_with_new_file _ _ _ Ep), String.eqb_refl.
      unfold file_bytes, with_new_file. cbn. now rewrite lookup_insert_eq.
    + rewrite (Create_eq _ _ (settled_with_new_file _ _ _ Ep N S)).
      unfold open_excl.
      now rewrite (lookup_with_new_file _ _ _ Ep), String.eqb_refl.
  - intros N D. rewrite (Create_eq _ _ S).
    unfold open_excl, create_file. rewrite N, Ep.
    now rewrite (parent_entry_dirname _ _ Ed), D.
Qed.

Lemma Create_in_directory_that_is_there_witness :
  Create Sample.notes Sample.world0 = (Return Self, (Sample.notes, Sample.world0))
  /\ Create (mkFile "locked/new.txt" None) Sample.world0
     = (Raise PermissionError, (mkFile "locked/new.txt" None, Sample.world0))
  /\ exists w', Create Sample.fresh Sample.world0 = (Return Self, (Sample.fresh, w'))
       /\ content_at w' "data/new.txt" = Some EmptyString
       /\ stdout w' = stdout Sample.world0
       /\ Create Sample.fresh w' = (Return Self, (Sample.fresh, w')).
Proof.
  assert (settled Sample.world0 "data") as S
    by (split; [vm_compute; reflexivity | split; [vm_compute; discriminate | now left]]).
  assert (settled Sample.world0 "locked") as S'
    by (split; [vm_compute; reflexivity | split; [vm_compute; discriminate | now left]]).
  split; [|split].
  - apply (Create_in_directory_that_is_there Sample.notes Sample.world0 S) with (e := Reg 0).
    vm_compute. reflexivity.
  - apply (Create_in_directory_that_is_there (mkFile "locked/new.txt" None)
             Sample.world0 S'); vm_compute; reflexivity.
  - apply (Create_in_directory_that_is_there Sample.fresh Sample.world0 S);
      vm_compute; reflexivity.
Defined.

(** *** Recreate *)

Lemma lookup_path_deleted w p q :
  lookup_path (set_names (delete p) w) q
  = if String.eqb p q then None else lookup_path w q.
Proof.
  unfold lookup_path, set_names. cbn.
  destruct (String.eqb_spec p q) as [<- | Ne].
  - destruct (is_empty p); [reflexivity | apply lookup_delete_eq].
  - destruct (is_empty q); [reflexivity|]. now rewrite lookup_delete_ne.
Qed.

Lemma path_isdir_deleted w p q i :
  lookup_path w p = Some (Reg i) ->
  path_isdir w q = true -> path_isdir (set_names (delete p) w) q = true.
Proof.
  intros L D. unfold path_isdir in *. rewrite lookup_path_deleted.
  destruct (String.eqb_spec p q) as [Eq | _]; [|exact D].
  rewrite <- Eq in D. now rewrite L in D.
Qed.

Lemma settled_deleted w p d i :
  lookup_path w p = Some (Reg i) ->
  settled w d -> settled (set_names (delete p) w) d.
Proof.
  intros L (D & B & P). split; [|split; [exact B|]].
  - now apply (path_isdir_deleted _ _ _ i).
  - destruct P as [P | P]; [now left | right].
    now apply (path_isdir_deleted _ _ _ i).
Qed.

Lemma Recreate_after lib h1 w1 :
  settled w1 (dirname (Path h1)) ->
  lookup_path w1 (Path h1) = None ->
  lookup_path w1 (dirname (Path h1)) = Some (Dir true) ->
  (Create ;; Open lib ;; ret Self) h1 w1
  = (Return Self,
     (mkFile (Path h1) (Some (Stream (next_ino w1) 0 false)),
      with_new_file (Path h1) w1)).
Proof.
  intros S N D.
  rewrite (bind_return _ _ _ _ _ _ _ (Create_new _ _ S N D)).
  destruct S as (Dd & _ & _).
  pose proof (dirname_nonempty _ (settled_nonempty _ _ Dd)) as Ep.
  erewrite (bind_return _ _ _ _ _ _ _ (Open_regular lib h1 _ (next_ino w1) _)).
  - reflexivity.
Unshelve.
  now rewrite (lookup_with_new_file _ _ _ Ep), String.eqb_refl.
Qed.

(** X9.  In a writable directory that is there, [Recreate] ends with an
    empty file at the path and a new stream on it, whether the path
    named nothing or a regular file whose stream the handle held;
    nothing is logged.  On an existing file of which the handle holds no
    stream it raises an attribute error and changes nothing. *)
Theorem Recreate_gives_empty_file (lib : stdlib) (h : File) (w : world) :
  (forall i, lookup_path w (Path h) = Some (Reg i) -> Content h = None ->
     Recreate lib h w = (Raise AttributeError, (h, w)))
  /\ (settled w (dirname (Path h)) ->
      lookup_path w (dirname (Path h)) = Some (Dir true) ->
      lookup_path w (Path h) = None
      \/ (exists i st, lookup_path w (Path h) = Some (Reg i) /\ Content h = Some st) ->
      exists h' w',
        Recreate lib h w = (Return Self, (h', w'))
        /\ Path h' = Path h
        /\ content_at w' (Path h) = Some EmptyString
        /\ stdout w' = stdout w
        /\ fst (Read h' w') = Return (Some EmptyString)).
Proof.
  split.
  - intros i L C. unfold Recreate.
    rewrite (bind_return _ _ _ _ _ _ _ (Exists_eq h w)).
    rewrite (path_exists_regular _ _ _ L).
    now rewrite (bind_raise _ _ _ _ _ _
                   (Delete_without_stream _ _ (path_exists_regular _ _ _ L) C)).
  - intros S D Cases.
    pose proof S as (Dd & _ & _).
    pose proof (settled_nonempty _ _ Dd) as Ed.
    pose proof (dirname_nonempty _ Ed) as Ep.
    assert (forall h1 w1, Path h1 = Path h ->
              settled w1 (dirname (Path h)) ->
              lookup_path w1 (Path h) = None ->
              lookup_path w1 (dirname (Path h)) = Some (Dir true) ->
              stdout w1 = stdout w ->
              exists h' w',
                (Create ;; Open lib ;; ret Self) h1 w1 = (Return Self, (h', w'))
                /\ Path h' = Path h
                /\ content_at w' (Path h) = Some EmptyString
                /\ stdout w' = stdout w
                /\ fst (Read h' w') = Return (Some EmptyString)) as Tail.
    { intros h1 w1 Eh S1 N1 D1 O1. rewrite <- Eh in S1, N1, D1.
      rewrite (Recreate_after lib h1 w1 S1 N1 D1). rewrite Eh.
      eexists _, _. split; [reflexivity|]. split; [reflexivity|].
      assert (content_at (with_new_file (Path h) w1) (Path h) = Some EmptyString) as Cn.
      { unfold content_at. rewrite (lookup_with_new_file _ _ _ Ep), String.eqb_refl.
        unfold file_bytes, with_new_file. cbn. now rewrite lookup_insert_eq. }
      split; [exact Cn|]. split; [exact O1|].
      rewrite (Read_open _ _ (Stream (next_ino w1) 0 false)); try reflexivity.
      cbn [fst]. unfold unread. cbn [s_pos s_ino string_drop].
      unfold file_bytes, with_new_file. cbn. now rewrite lookup_insert_eq. }
    unfold Recreate.
    rewrite (bind_return _ _ _ _ _ _ _ (Exists_eq h w)).
    destruct Cases as [N | (i & st & L & C)].
    + unfold path_exists. rewrite N.
      rewrite (bind_return _ _ _ _ _ _ _ (eq_refl : ret Self h w = _)).
      now apply Tail.
    + rewrite (path_exists_regular _ _ _ L).
      rewrite (bind_return _ _ _ _ _ _ _ (Delete_regular _ _ _ _ L C)).
      rewrite (parent_entry_dirname _ _ Ed), D.
      apply Tail.
      * reflexivity.
      * now apply (settled_deleted _ _ _ i).
      * now rewrite lookup_path_deleted, String.eqb_refl.
      * rewrite lookup_path_deleted.
        destruct (String.eqb_spec (Path h) (dirname (Path h))) as [Eq | _];
          [|exact D]. rewrite <- Eq in D. now rewrite L in D.
      * reflexivity.
Qed.

Lemma Recreate_gives_empty_file_witness :
  Recreate Sample.byte_count (mkFile "data/notes.txt" None) Sample.world0
  = (Raise AttributeError, (mkFile "data/notes.txt" None, Sample.world0))
  /\ exists h' w',
       Recreate Sample.byte_count Sample.notes Sample.world0 = (Return Self, (h', w'))
       /\ Path h' = "data/notes.txt"
       /\ content_at w' "data/notes.txt" = Some EmptyString
       /\ stdout w' = stdout Sample.world0
       /\ fst (Read h' w') = Return (Some EmptyString).
Proof.
  split.
  - apply (Recreate_gives_empty_file Sample.byte_count
             (mkFile "data/notes.txt" None) Sample.world0) with (i := 0);
      vm_compute; reflexivity.
  - apply (Recreate_gives_empty_file Sample.byte_count Sample.notes Sample.world0).
    + split; [vm_compute; reflexivity | split; [vm_compute; discriminate | now left]].
    + vm_compute. reflexivity.
    + right. exists 0, (Stream 0 0 false). split; vm_compute; reflexivity.
Defined.

(** *** Backup *)









(** *** Hash *)

Lemma read_chunks_concat fuel size bytes :
  0 < size -> String.length bytes <= fuel ->
  fold_right String.append EmptyString (read_chunks fuel size bytes) = bytes.
Proof.
  intros Sz. revert bytes. induction fuel as [|fuel IH]; intros bytes L.
  - destruct bytes; [reflexivity | simpl in L; lia].
  - destruct bytes as [|c r]; [reflexivity|].
    cbn [read_chunks fold_right]. rewrite IH.
    + apply str_take_drop.
    + rewrite str_length_drop. simpl in *. lia.
Qed.

Lemma fold_update_concat (lib : stdlib) :
  (forall h a b, hash_update lib (hash_update lib h a) b = hash_update lib h (a +:+ b)) ->
  forall l h,
    fold_left (hash_update lib) l h
    = fold_left (hash_update lib) [fold_right String.append EmptyString l] h
    \/ l = [].
Proof.
  intros Comp l. induction l as [|a l IH]; intros h; [now right | left].
  cbn [fold_left fold_right]. destruct (IH (hash_update lib h a)) as [E | ->].
  - rewrite E. cbn [fold_left]. apply Comp.
  - cbn. now rewrite str_app_empty_r.
Qed.

(** X12.  For a digest whose [update] is compositional, as those of
    hashlib are, reading the file in blocks of 4096 bytes gives [Hash]
    the digest of the whole content taken in one piece. *)
Theorem Hash_in_blocks_is_hash_of_content (lib : stdlib) (algorithm : string)
    (h : File) (w : world) (bytes : string) (h0 : hasher lib) :
  (forall s a b, hash_update lib (hash_update lib s a) b = hash_update lib s (a +:+ b)) ->
  (forall s, hash_update lib s EmptyString = s) ->
  content_at w (Path h) = Some bytes ->
  hashlib_new lib algorithm = Some h0 ->
  fst (Hash lib algorithm h w)
  = match hexdigest lib (hash_update lib h0 bytes) with
    | Some d => Return (Some d)
    | None => Raise TypeError
    end.
Proof.
  intros Comp Unit C A.
  rewrite (Hash_regular lib algorithm _ _ _ C). cbn [fst]. unfold digest. rewrite A.
  destruct (fold_update_concat lib Comp (chunks bytes) h0) as [E | E].
  - rewrite E. cbn [fold_left]. unfold chunks.
    rewrite read_chunks_concat; [reflexivity | lia | lia].
  - rewrite E. cbn [fold_left].
    assert (bytes = EmptyString) as ->.
    { unfold chunks in E. now destruct bytes. }
    now rewrite Unit.
Qed.

Lemma byte_count_compositional s a b :
  hash_update Sample.byte_count (hash_update Sample.byte_count s a) b
  = hash_update Sample.byte_count s (a +:+ b).
Proof. cbn. rewrite str_length_app. lia. Qed.

Lemma Hash_in_blocks_is_hash_of_content_witness :
  fst (Hash Sample.byte_count "count" Sample.notes Sample.world0) = Return (Some "5").
Proof.
  apply (Hash_in_blocks_is_hash_of_content Sample.byte_count "count"
           Sample.notes Sample.world0 "hello" 0).
  - exact byte_count_compositional.
  - intros s. cbn. lia.
  - vm_compute. reflexivity.
  - reflexivity.
Defined.

(** X13.  How [Hash] fails: on a path that names nothing it logs one
    line and returns the absent result; on a regular file it raises a
    value error for an algorithm name hashlib does not know, and on a
    directory an is-a-directory error, in both cases without logging. *)
Theorem Hash_failures (lib : stdlib) (algorithm : string) (h : File) (w : world) :
  (lookup_path w (Path h) = None ->
   Hash lib algorithm h w
   = (Return None, (h, print ("File not found: " +:+ Path h) w)))
  /\ (forall i, lookup_path w (Path h) = Some (Reg i) ->
      hashlib_new lib algorithm = None ->
      Hash lib algorithm h w = (Raise ValueError, (h, w)))
  /\ (forall b, lookup_path w (Path h) = Some (Dir b) ->
      Hash lib algorithm h w = (Raise IsADirectoryError, (h, w))).
Proof.
  split; [|split].
  - intros N. unfold Hash, bind, Exists, get_path, inspect, say, ret, path_exists.
    cbn. now rewrite N.
  - intros i L A.
    assert (content_at w (Path h) = Some (file_bytes w i)) as C
      by (unfold content_at; now rewrite L).
    rewrite (Hash_regular lib algorithm _ _ _ C). unfold digest. now rewrite A.
  - intros b L. unfold Hash, try_except, bind, Exists, get_path, inspect, syscall,
      open_read, path_exists.
    cbn. rewrite L. cbn. now rewrite L.
Qed.

Lemma Hash_failures_witness :
  Hash Sample.byte_count "sha256" Sample.notes Sample.world0
  = (Raise ValueError, (Sample.notes, Sample.world0))
  /\ Hash Sample.byte_count "count" Sample.fresh Sample.world0
     = (Return None, (Sample.fresh, print "File not found: data/new.txt" Sample.world0)).
Proof.
  split.
  - apply (Hash_failures Sample.byte_count "sha256" Sample.notes Sample.world0)
      with (i := 0); vm_compute; reflexivity.
  - apply (Hash_failures Sample.byte_count "count" Sample.fresh Sample.world0).
    vm_compute. reflexivity.
Defined.

(** *** ReadAsCsv *)

Ltac case_outcome :=
  match goal with
  | |- context [match ?x with Return _ => _ | Raise _ => _ end] =>
      let e := fresh "e" in destruct x as [?|e]; [|destruct e]; cbn
  end.

(** X14.  [ReadAsCsv] opens the file itself: the stream the handle
    holds plays no part and is not moved.  It never changes the handle
    or the file system, and it returns the absent result exactly when it
    logs a line (the file is not found or is not well-formed CSV). *)
Theorem ReadAsCsv_reads_afresh (lib : stdlib) (h : File) (w : world) :
  (forall c, fst (ReadAsCsv lib (mkFile (Path h) c) w) = fst (ReadAsCsv lib h w))
  /\ exists w',
       snd (ReadAsCsv lib h w) = (h, w')
       /\ names w' = names w /\ inodes w' = inodes w
       /\ ((fst (ReadAsCsv lib h w) = Return None
            /\ exists line, stdout w' = (stdout w ++ [line])%list)
           \/ (fst (ReadAsCsv lib h w) <> Return None /\ w' = w)).
Proof.
  split.
  - intros c. unfold ReadAsCsv, try_except, bind, get_path, open_for_reading,
      syscall, inspect, of_outcome, say, ret. cbn.
    repeat case_outcome; reflexivity.
  - unfold ReadAsCsv, try_except, bind, get_path, open_for_reading,
      syscall, inspect, of_outcome, say, ret. cbn.
    repeat case_outcome; eexists; repeat split;
      first [ left; split; [reflexivity | eexists; reflexivity]
            | right; split; [discriminate | reflexivity] ].
Qed.

(** *** json: every str comes back *)

Lemma scanstring_escape_char (c : ascii) :
  forall f r,
    Json.scanstring (S f) (Json.escape_char c +:+ r)
    = match Json.scanstring f r with
      | Some (t, rest) => Some (String c t, rest)
      | None => None
      end.
Proof.
  destruct c as [b0 b1 b2 b3 b4 b5 b6 b7].
  destruct b0, b1, b2, b3, b4, b5, b6, b7; intros [|f] r; reflexivity.
Qed.

Lemma scanstring_escape (s : string) :
  forall f rest,
    String.length s < f ->
    Json.scanstring f (Json.escape s +:+ String Chars.dquote rest) = Some (s, rest).
Proof.
  induction s as [|c s IH]; intros f rest L.
  - destruct f; [simpl in L; lia | reflexivity].
  - destruct f; [simpl in L; lia|].
    cbn [Json.escape]. rewrite str_app_assoc, scanstring_escape_char.
    rewrite IH; [reflexivity | simpl in L; lia].
Qed.

Lemma has_byte_app c (a b : string) :
  has_byte c (a +:+ b) = has_byte c a || has_byte c b.
Proof.
  induction a as [|x a IH]; [reflexivity|].
  rewrite str_app_cons. cbn [has_byte]. now rewrite IH, orb_assoc.
Qed.

Lemma escape_char_no_cr (c : ascii) : has_byte Chars.CR (Json.escape_char c) = false.
Proof.
  destruct c as [b0 b1 b2 b3 b4 b5 b6 b7].
  destruct b0, b1, b2, b3, b4, b5, b6, b7; reflexivity.
Qed.

Lemma escape_no_cr (s : string) : has_byte Chars.CR (Json.escape s) = false.
Proof.
  induction s as [|c s IH]; [reflexivity|].
  cbn [Json.escape]. now rewrite has_byte_app, escape_char_no_cr, IH.
Qed.

Lemma escape_char_length (c : ascii) : 1 <= String.length (Json.escape_char c).
Proof.
  destruct c as [b0 b1 b2 b3 b4 b5 b6 b7].
  destruct b0, b1, b2, b3, b4, b5, b6, b7; vm_compute; lia.
Qed.

Lemma escape_length (s : string) : String.length s <= String.length (Json.escape s).
Proof.
  induction s as [|c s IH]; [reflexivity|].
  cbn [Json.escape String.length]. rewrite str_length_app.
  pose proof (escape_char_length c). lia.
Qed.

Lemma loads_encoder (s : string) : Json.loads (Json.encoder s) = Return (PyStr s).
Proof.
  unfold Json.loads, Json.encoder.
  change (Json.skip_ws (String Chars.dquote (Json.escape s +:+ Chars.str1 Chars.dquote)))
    with (String Chars.dquote (Json.escape s +:+ Chars.str1 Chars.dquote)).
  set (text := String Chars.dquote (Json.escape s +:+ Chars.str1 Chars.dquote)).
  replace (2 * String.length text + 2) with (S (2 * String.length text + 1)) by lia.
  unfold text at 2. cbn [Json.scan_once].
  change (Ascii.eqb Chars.dquote Chars.dquote) with true. cbv iota.
  unfold Chars.str1. rewrite scanstring_escape; [reflexivity|].
  unfold text. cbn [String.length]. rewrite str_length_app.
  pose proof (escape_length s). lia.
Qed.

(** X15.  Every [str] comes back: whatever bytes the text holds
    (quotes, backslashes, control characters, UTF-8 sequences),
    [WriteAsJson] then [Open] then [ReadAsJson] returns the same text,
    when the path can be opened for writing. *)
Theorem json_round_trip_every_str (lib : stdlib) (s : string) (h : File) (w : world) :
  writable w (Path h) = true ->
  fst ((WriteAsJson (PyStr s) ;; Open lib ;; ReadAsJson) h w) = Return (PyStr s).
Proof.
  intros W. apply json_round_trip_via; [reflexivity | reflexivity | | exact W].
  change (fst (Json.dump (PyStr s))) with (Json.encoder s).
  rewrite universal_newlines_no_cr; [apply loads_encoder|].
  unfold Json.encoder. cbn [has_byte].
  rewrite has_byte_app, escape_no_cr. reflexivity.
Qed.

Lemma json_round_trip_every_str_witness :
  let s := "tab	quote" +:+ Chars.str1 Chars.dquote +:+ "back\slash" +:+ Chars.str1 Chars.CR in
  fst ((WriteAsJson (PyStr s) ;; Open Sample.byte_count ;; ReadAsJson)
         Sample.fresh Sample.world0) = Return (PyStr s).
Proof.
  apply (json_round_trip_every_str Sample.byte_count _ Sample.fresh Sample.world0).
  vm_compute. reflexivity.
Defined.

(** *** csv: rows of one-line cells come back *)

Import Csv Chars.













Section NoByte.
Variable c : ascii.
Hypothesis not_quote : Ascii.eqb dquote c = false.
Hypothesis not_comma : Ascii.eqb delimiter c = false.




End NoByte.








(** *** Open *)

(** X17.  What [Open] does with what the path names: nothing there, it
    forgets the stream, logs one line and returns the handle; a regular
    file, it holds a new stream at the start of the file and logs
    nothing; a directory, it raises an is-a-directory error, which its
    handler does not catch, and the handle keeps what it held. *)
Theorem Open_by_kind (lib : stdlib) (h : File) (w : world) :
  (lookup_path w (Path h) = None ->
   Open lib h w
   = (Return Self, (mkFile (Path h) None, print ("File not found: " +:+ Path h) w)))
  /\ (forall i, lookup_path w (Path h) = Some (Reg i) ->
      Open lib h w = (Return Self, (mkFile (Path h) (Some (Stream i 0 false)), w)))
  /\ (forall b, lookup_path w (Path h) = Some (Dir b) ->
      Open lib h w = (Raise IsADirectoryError, (h, w))).
Proof.
  split; [|split].
  - intros N. unfold Open, bind, Exists, get_path, inspect, set_content, say, ret,
      path_exists. cbn. now rewrite N.
  - intros i L. now apply Open_regular.
  - intros b L. unfold Open, try_except, bind, Exists, get_path, inspect,
      open_for_reading, syscall, open_read, path_exists.
    cbn. rewrite L. cbn. now rewrite L.
Qed.

Lemma Open_by_kind_witness :
  Open Sample.byte_count Sample.fresh Sample.world0
  = (Return Self,
     (Sample.fresh, print "File not found: data/new.txt" Sample.world0))
  /\ Open Sample.byte_count (mkFile "data" None) Sample.world0
     = (Raise IsADirectoryError, (mkFile "data" None, Sample.world0)).
Proof.
  split.
  - apply (Open_by_kind Sample.byte_count Sample.fresh Sample.world0).
    vm_compute. reflexivity.
  - apply (Open_by_kind Sample.byte_count (mkFile "data" None) Sample.world0)
      with (b := true).
    vm_compute. reflexivity.
Defined.

(** *** GetFileSize and IsEmpty *)

Lemma GetFileSize_eq h w :
  GetFileSize h w
  = (Return (if path_exists w (Path h) then getsize w (Path h) else None), (h, w)).
Proof.
  unfold GetFileSize, bind, Exists, get_path, inspect, ret. cbn.
  now destruct (path_exists w (Path h)).
Qed.

Lemma IsEmpty_eq h w :
  IsEmpty h w
  = (Return (if path_exists w (Path h)
             then match getsize w (Path h) with Some 0 => true | _ => false end
             else true), (h, w)).
Proof.
  unfold IsEmpty, bind, Exists, get_path, inspect, ret. cbn.
  now destruct (path_exists w (Path h)).
Qed.

Lemma lines_text_empty (lines : list string) :
  lines_text lines = EmptyString <-> lines = [].
Proof.
  split; [|now intros ->].
  destruct lines as [|l lines]; [reflexivity|].
  cbn [lines_text]. intros E. apply (f_equal String.length) in E.
  rewrite str_length_app in E. simpl in E. lia.
Qed.

(** X18.  After [Overwrite] with lines that are all [str],
    [GetFileSize] is the number of bytes of the lines with their line
    feeds, and [IsEmpty] holds exactly when no line was given; on a path
    that names nothing [GetFileSize] is absent and [IsEmpty] holds. *)
Theorem size_after_Overwrite (lines : list string) (h : File) (w : world) :
  (lookup_path w (Path h) = None ->
   fst (GetFileSize h w) = Return None /\ fst (IsEmpty h w) = Return true)
  /\ (writable w (Path h) = true ->
      fst ((Overwrite (map PyStr lines) ;; GetFileSize) h w)
      = Return (Some (String.length (lines_text lines)))
      /\ fst ((Overwrite (map PyStr lines) ;; IsEmpty) h w)
         = Return (match lines with [] => true | _ => false end)).
Proof.
  split.
  - intros N. rewrite GetFileSize_eq, IsEmpty_eq. unfold path_exists. now rewrite N.
  - intros W.
    destruct (open_trunc_writable _ _ W) as (i & w1 & E & L & B & S).
    destruct (write_lines_strs i lines h w1 w1 _ (wrote_nothing i w1)) as (w' & Ew & Wr).
    assert (Overwrite (map PyStr lines) h w = (Return Self, (h, w'))) as Eo.
    { unfold Overwrite, with_open, bind, get_path, syscall, ret. cbn. now rewrite E, Ew. }
    pose proof (content_at_wrote _ _ _ _ _ L Wr) as C. rewrite B in C.
    change (EmptyString +:+ EmptyString +:+ lines_text lines) with (lines_text lines) in C.
    assert (path_exists w' (Path h) = true) as Ex.
    { unfold path_exists. unfold content_at in C.
      now destruct (lookup_path w' (Path h)). }
    rewrite !(bind_return _ _ _ _ _ _ _ Eo), GetFileSize_eq, IsEmpty_eq, Ex.
    unfold getsize. rewrite C. cbn [fmap option_fmap option_map fst]. split; [reflexivity|].
    destruct lines as [|l lines]; [reflexivity|].
    destruct (String.length (lines_text (l :: lines))) eqn:Len; [|reflexivity].
    exfalso. assert (lines_text (l :: lines) = EmptyString) as Z
      by (now destruct (lines_text (l :: lines))).
    now apply lines_text_empty in Z.
Qed.

Lemma size_after_Overwrite_witness :
  fst ((Overwrite (map PyStr ["a"; "bc"]) ;; GetFileSize) Sample.fresh Sample.world0)
  = Return (Some 5)
  /\ fst (IsEmpty Sample.fresh Sample.world0) = Return true.
Proof.
  split.
  - apply (size_after_Overwrite ["a"; "bc"] Sample.fresh Sample.world0).
    vm_compute. reflexivity.
  - apply (size_after_Overwrite [] Sample.fresh Sample.world0).
    vm_compute. reflexivity.
Defined.

(** *** json: every int comes back *)

Lemma to_uint_unorm p : Decimal.unorm (Pos.to_uint p) = Pos.to_uint p.
Proof.
  rewrite <- DecimalPos.Unsigned.to_of, DecimalPos.Unsigned.of_to. reflexivity.
Qed.

(** The decimal digits of a positive number do not start with a zero. *)
Lemma to_uint_head p : forall d, Pos.to_uint p <> Decimal.D0 d.
Proof.
  intros d E. pose proof (to_uint_unorm p) as U. rewrite E in U.
  rewrite unorm_D0 in U.
  assert (d = Decimal.Nil \/ d <> Decimal.Nil) as [-> | Ne]
    by (destruct d; [left; reflexivity | right; discriminate ..]).
  - now apply (Unsigned.to_uint_nonzero p).
  - pose proof (nb_digits_unorm d Ne) as L. rewrite U in L. simpl in L. lia.
Qed.

Lemma span_digits_uint d rest :
  delimits rest = true ->
  Json.span_digits (NilEmpty.string_of_uint d +:+ rest)
  = (NilEmpty.string_of_uint d, rest).
Proof.
  intros D. induction d; cbn [NilEmpty.string_of_uint];
    try (rewrite str_app_cons; cbn [Json.span_digits];
         change (Chars.is_digit _) with true; cbv iota; rewrite IHd; reflexivity).
  change (EmptyString +:+ rest) with rest.
  destruct rest as [|c r]; [reflexivity|].
  cbn [delimits] in D. apply negb_true_iff in D.
  repeat (apply orb_false_iff in D as [D ?]).
  cbn [Json.span_digits]. now rewrite D.
Qed.

Lemma match_number_uint d rest sign s :
  delimits rest = true ->
  d <> Decimal.Nil -> (forall d', d <> Decimal.D0 d') ->
  (sign = EmptyString /\ s = NilEmpty.string_of_uint d +:+ rest
   \/ sign = "-" /\ s = String "-" (NilEmpty.string_of_uint d +:+ rest)) ->
  Json.match_number s
  = Some (sign +:+ NilEmpty.string_of_uint d, EmptyString, EmptyString, rest).
Proof.
  intros D Nn Nz Hs.
  assert (exists c t, NilEmpty.string_of_uint d = String c t
                      /\ Chars.is_digit c = true /\ Ascii.eqb c "0" = false
                      /\ Ascii.eqb c "-" = false) as (c & t & Ed & Dc & Zc & Mc).
  { destruct d; try (eexists _, _; repeat split; reflexivity);
      [congruence | now destruct (Nz d)]. }
  pose proof (span_digits_uint d rest D) as Sp. rewrite Ed in Sp.
  rewrite str_app_cons in Sp.
  unfold Json.match_number.
  destruct Hs as [[-> ->] | [-> ->]]; rewrite Ed, ?str_app_cons.
  - rewrite Mc. cbv beta iota. rewrite Zc, Dc, Sp.
    destruct rest as [|x r]; [reflexivity|].
    cbn [delimits] in D. apply negb_true_iff in D.
    repeat (apply orb_false_iff in D as [D ?]).
    cbv beta iota. rewrite H1. cbv beta iota. rewrite H0, H. reflexivity.
  - change (Ascii.eqb "-" "-") with true. cbv beta iota. rewrite Zc, Dc, Sp.
    destruct rest as [|x r]; [reflexivity|].
    cbn [delimits] in D. apply negb_true_iff in D.
    repeat (apply orb_false_iff in D as [D ?]).
    cbv beta iota. rewrite H1. cbv beta iota. rewrite H0, H. reflexivity.
Qed.

Lemma match_number_int z rest :
  delimits rest = true ->
  Json.match_number (int_str z +:+ rest)
  = Some (int_str z, EmptyString, EmptyString, rest).
Proof.
  intros D. unfold int_str. destruct z as [|p|p]; cbn [Z.to_int NilZero.string_of_int].
  - cbn [NilZero.string_of_uint NilEmpty.string_of_uint].
    unfold Json.match_number. rewrite str_app_cons.
    change (Ascii.eqb "0" "-") with false. cbv beta iota.
    change (Ascii.eqb "0" "0") with true. cbv beta iota.
    change (EmptyString +:+ rest) with rest.
    destruct rest as [|x r]; [reflexivity|].
    cbn [delimits] in D. apply negb_true_iff in D.
    repeat (apply orb_false_iff in D as [D ?]).
    cbv beta iota. rewrite H1. cbv beta iota. rewrite H0, H. reflexivity.
  - assert (NilZero.string_of_uint (Pos.to_uint p) = NilEmpty.string_of_uint (Pos.to_uint p)) as ->.
    { pose proof (Unsigned.to_uint_nonnil p). now destruct (Pos.to_uint p). }
    apply (match_number_uint (Pos.to_uint p) rest EmptyString); auto.
    + apply Unsigned.to_uint_nonnil.
    + intros d'. apply to_uint_head.
  - assert (NilZero.string_of_uint (Pos.to_uint p) = NilEmpty.string_of_uint (Pos.to_uint p)) as ->.
    { pose proof (Unsigned.to_uint_nonnil p). now destruct (Pos.to_uint p). }
    apply (match_number_uint (Pos.to_uint p) rest "-"); auto.
    + apply Unsigned.to_uint_nonnil.
    + intros d'. apply to_uint_head.
Qed.

Lemma parse_int_str z : Json.parse_int (int_str z) = Some z.
Proof.
  unfold Json.parse_int, int_str. rewrite NilZero.isi.
  - cbn. now rewrite DecimalZ.of_to.
  - destruct z; cbn; try discriminate.
    intros [= E]. now apply (Unsigned.to_uint_nonnil p).
  - destruct z; cbn; try discriminate.
    intros [= E]. now apply (Unsigned.to_uint_nonnil p).
Qed.

(** The first character of the decimal text of an [int]. *)
Lemma int_str_head z :
  exists c t, int_str z = String c t
    /\ (Chars.is_digit c = true \/ c = "-"%char).
Proof.
  unfold int_str. destruct z as [|p|p]; cbn [Z.to_int NilZero.string_of_int].
  - eexists _, _. split; [reflexivity | now left].
  - pose proof (Unsigned.to_uint_nonnil p).
    destruct (Pos.to_uint p); try congruence;
      eexists _, _; (split; [reflexivity | now left]).
  - eexists _, _. split; [reflexivity | now right].
Qed.

(** On a text that starts as a number [scan_once] goes to the number
    pattern. *)
Lemma scan_once_number_head c t f :
  Chars.is_digit c = true \/ c = "-"%char ->
  Json.scan_once (S f) (String c t)
  = match Json.match_number (String c t) with
    | Some (integer, frac, exp, rest) =>
        if is_empty frac && is_empty exp then
          match Json.parse_int integer with
          | Some z => Some (PyInt z, rest)
          | None => None
          end
        else Some (PyFloat (integer +:+ frac +:+ exp), rest)
    | None =>
        if Json.starts "NaN" (String c t) then Some (PyFloat "nan", Json.after "NaN" (String c t))
        else if Json.starts "Infinity" (String c t)
             then Some (PyFloat "inf", Json.after "Infinity" (String c t))
        else if Json.starts "-Infinity" (String c t)
             then Some (PyFloat "-inf", Json.after "-Infinity" (String c t))
        else None
    end.
Proof.
  intros H.
  destruct c as [b0 b1 b2 b3 b4 b5 b6 b7].
  destruct b0, b1, b2, b3, b4, b5, b6, b7;
    try (exfalso; destruct H as [H | H]; discriminate H); reflexivity.
Qed.

Lemma scan_once_int z rest f :
  delimits rest = true ->
  Json.scan_once (S f) (int_str z +:+ rest) = Some (PyInt z, rest).
Proof.
  intros D. destruct (int_str_head z) as (c & t & E & H).
  pose proof (match_number_int z rest D) as M.
  rewrite E, str_app_cons in *. rewrite (scan_once_number_head _ _ _ H), M.
  cbn [is_empty andb]. rewrite <- E. now rewrite parse_int_str.
Qed.

(** *** json: plain values come back *)

Import Json Chars.

Lemma starts_value_facts c :
  starts_value c = true ->
  is_ws c = false /\ Ascii.eqb c "]" = false /\ Ascii.eqb c "}" = false.
Proof.
  destruct c as [b0 b1 b2 b3 b4 b5 b6 b7].
  destruct b0, b1, b2, b3, b4, b5, b6, b7; try discriminate; now intros _.
Qed.

Lemma skip_ws_value c t : starts_value c = true -> skip_ws (String c t) = String c t.
Proof.
  intros H. destruct (starts_value_facts _ H) as (W & _). cbn [skip_ws]. now rewrite W.
Qed.

Lemma skip_ws_indent n t : skip_ws (repeat_str indent_unit n +:+ t) = skip_ws t.
Proof. induction n as [|n IH]; [reflexivity|]. cbn [repeat_str]. rewrite str_app_assoc. exact IH. Qed.

Lemma skip_ws_newline_indent n t : skip_ws (newline_indent n +:+ t) = skip_ws t.
Proof.
  unfold newline_indent. rewrite str_app_assoc.
  change (skip_ws (str1 LF +:+ repeat_str indent_unit n +:+ t))
    with (skip_ws (repeat_str indent_unit n +:+ t)).
  apply skip_ws_indent.
Qed.

Lemma delimits_newline_indent n t : delimits (newline_indent n +:+ t) = true.
Proof. reflexivity. Qed.

(** One step of each scanner. *)
Lemma scan_once_string f r :
  scan_once (S f) (String dquote r)
  = match scanstring (S (String.length r)) r with
    | Some (t, rest) => Some (PyStr t, rest)
    | None => None
    end.
Proof. reflexivity. Qed.

Lemma scan_once_list f r :
  scan_once (S f) (String "[" r)
  = match skip_ws r with
    | String c' r' =>
        if Ascii.eqb c' "]" then Some (PyList [], r')
        else match scan_items f (String c' r') with
             | Some (values, rest) => Some (PyList values, rest)
             | None => None
             end
    | EmptyString => None
    end.
Proof. reflexivity. Qed.

Lemma scan_once_dict f r :
  scan_once (S f) (String "{" r)
  = match skip_ws r with
    | String c' r' =>
        if Ascii.eqb c' "}" then Some (PyDict [], r')
        else if Ascii.eqb c' dquote then
          match scan_members f r' [] with
          | Some (pairs, rest) => Some (PyDict pairs, rest)
          | None => None
          end
        else None
    | EmptyString => None
    end.
Proof. reflexivity. Qed.

Lemma scan_items_step f s :
  scan_items (S f) s
  = match scan_once f s with
    | None => None
    | Some (value, rest) =>
        match skip_ws rest with
        | String c r =>
            if Ascii.eqb c "]" then Some ([value], r)
            else if Ascii.eqb c "," then
              match scan_items f (skip_ws r) with
              | Some (values, rest') => Some (value :: values, rest')
              | None => None
              end
            else None
        | EmptyString => None
        end
    end.
Proof. reflexivity. Qed.

Lemma scan_members_step f s pairs :
  scan_members (S f) s pairs
  = match scanstring (S (String.length s)) s with
    | None => None
    | Some (key, rest) =>
        match skip_ws rest with
        | String c r =>
            if Ascii.eqb c ":" then
              match scan_once f (skip_ws r) with
              | None => None
              | Some (value, rest') =>
                  match skip_ws rest' with
                  | String c' r' =>
                      if Ascii.eqb c' "}" then Some (dict_set key value pairs, r')
                      else if Ascii.eqb c' "," then
                        match skip_ws r' with
                        | String q r'' =>
                            if Ascii.eqb q dquote
                            then scan_members f r'' (dict_set key value pairs)
                            else None
                        | EmptyString => None
                        end
                      else None
                  | EmptyString => None
                  end
              end
            else None
        | EmptyString => None
        end
    end.
Proof. reflexivity. Qed.

(** What the encoder yields for a plain value. *)
Lemma plain_serializable v : json_plain v = true -> serializable v = true.
Proof.
  revert v. apply (pyval_nested_ind (fun v => json_plain v = true -> serializable v = true));
    try (intros; reflexivity); try (intros; discriminate).
  - intros l IH. cbn [json_plain serializable].
    induction IH as [|x l Hx _ IHl]; [reflexivity|].
    cbn [forallb]. intros H. apply andb_prop in H as [A B].
    now rewrite (Hx A), (IHl B).
  - intros items IH. cbn [json_plain serializable]. intros H.
    apply andb_prop in H as [K V]. revert K V.
    induction IH as [|[k x] items Hx _ IHl]; [reflexivity|].
    cbn [forallb distinct_keys fst snd] in *. intros K V.
    destruct k; try discriminate. apply andb_prop in K as [_ K].
    apply andb_prop in V as [A B]. cbn [key_text fst snd].
    now rewrite (Hx A), (IHl K B).
Qed.

Lemma scalar_iterencode v t level : scalar_text v = Some t -> iterencode v level = yield t.
Proof. destruct v as [ | [|] | | | | | | | ]; try discriminate; now intros [= <-]. Qed.

Lemma fst_gen_seq (a b : gen) : snd a = None -> fst (gen_seq a b) = fst a +:+ fst b.
Proof. destruct a as [s [e|]]; [discriminate | reflexivity]. Qed.

Section Level.
Variable level : nat.
Let enc := fun v => iterencode v (S level).
Let sep := item_separator +:+ newline_indent (S level).

Lemma encode_values_text x l buf :
  serializable x = true ->
  fst (encode_values enc sep (x :: l) buf)
  = buf +:+ fst (enc x) +:+ fst (encode_values enc sep l sep).
Proof.
  intros Sx. cbn [encode_values].
  destruct (scalar_text x) as [t|] eqn:T.
  - rewrite fst_gen_seq by reflexivity. unfold enc.
    rewrite (scalar_iterencode _ _ _ T). cbn [yield fst]. now rewrite str_app_assoc.
  - rewrite fst_gen_seq.
    + rewrite fst_gen_seq by reflexivity. cbn [yield fst]. now rewrite str_app_assoc.
    + rewrite snd_gen_seq. cbn [yield snd]. unfold enc.
      now rewrite iterencode_failure, Sx.
Qed.

Lemma encode_items_text k x items first :
  serializable x = true ->
  fst (encode_items enc sep ((PyStr k, x) :: items) first)
  = (if first then EmptyString else sep) +:+ encoder k +:+ key_separator
    +:+ fst (enc x) +:+ fst (encode_items enc sep items false).
Proof.
  intros Sx. cbn [encode_items key_text].
  rewrite !fst_gen_seq; try reflexivity.
  - cbn [yield fst].
    destruct (scalar_text x) as [t|] eqn:T.
    + unfold enc. now rewrite (scalar_iterencode _ _ _ T).
    + reflexivity.
  - destruct (scalar_text x) as [t|] eqn:T; [reflexivity|].
    unfold enc. now rewrite iterencode_failure, Sx.
Qed.

End Level.

Lemma list_text x l level :
  forallb serializable (x :: l) = true ->
  fst (iterencode (PyList (x :: l)) level)
  = String "[" (newline_indent (S level)
      +:+ fst (iterencode x (S level))
      +:+ fst (encode_values (fun v => iterencode v (S level))
                 (item_separator +:+ newline_indent (S level)) l
                 (item_separator +:+ newline_indent (S level)))
      +:+ newline_indent level +:+ "]").
Proof.
  intros Ser.
  change (fst (iterencode (PyList (x :: l)) level))
    with (fst (gen_seq
                 (encode_values (fun v => iterencode v (S level))
                    (item_separator +:+ newline_indent (S level))
                    (x :: l) ("[" +:+ newline_indent (S level)))
                 (gen_seq (yield (newline_indent level)) (yield "]")))).
  rewrite fst_gen_seq.
  - rewrite encode_values_text by (cbn [forallb] in Ser; now apply andb_prop in Ser as [A _]).
    cbn [gen_seq yield fst]. now rewrite !str_app_assoc.
  - rewrite encode_values_failure; [now rewrite Ser|].
    apply Forall_forall. intros v _. apply iterencode_failure.
Qed.

Lemma dict_text k x items level :
  serializable (PyDict ((PyStr k, x) :: items)) = true ->
  fst (iterencode (PyDict ((PyStr k, x) :: items)) level)
  = String "{" (newline_indent (S level)
      +:+ encoder k +:+ key_separator
      +:+ fst (iterencode x (S level))
      +:+ fst (encode_items (fun v => iterencode v (S level))
                 (item_separator +:+ newline_indent (S level)) items false)
      +:+ newline_indent level +:+ "}").
Proof.
  intros Ser.
  change (fst (iterencode (PyDict ((PyStr k, x) :: items)) level))
    with (fst (gen_seq (yield "{")
              (gen_seq (yield (newline_indent (S level)))
              (gen_seq
                 (encode_items (fun v => iterencode v (S level))
                    (item_separator +:+ newline_indent (S level))
                    ((PyStr k, x) :: items) true)
                 (gen_seq (yield (newline_indent level)) (yield "}")))))).
  rewrite !fst_gen_seq; try reflexivity.
  - rewrite encode_items_text.
    + cbn [gen_seq yield fst]. rewrite !str_app_assoc. reflexivity.
    + cbn [serializable forallb fst snd key_text] in Ser.
      now apply andb_prop in Ser as [A _].
  - rewrite encode_items_failure.
    + change (forallb _ ((PyStr k, x) :: items))
        with (serializable (PyDict ((PyStr k, x) :: items))). now rewrite Ser.
    + apply Forall_forall. intros v _. apply iterencode_failure.
Qed.

Lemma plain_head v level :
  json_plain v = true ->
  exists c t, fst (iterencode v level) = String c t /\ starts_value c = true.
Proof.
  intros P. destruct v as [ | [|] | z | r | s | l | l | items | c ]; try discriminate;
    try (eexists _, _; split; reflexivity).
  - destruct (int_str_head z) as (c & t & E & H).
    exists c, t. split; [exact E|]. unfold starts_value.
    destruct H as [-> | ->]; [reflexivity|]. now rewrite orb_true_r.
  - destruct l as [|x l]; [eexists _, _; split; reflexivity|].
    pose proof (plain_serializable _ P) as Ser. cbn [serializable] in Ser.
    rewrite (list_text _ _ _ Ser). eexists _, _. split; reflexivity.
  - destruct items as [|[k x] items]; [eexists _, _; split; reflexivity|].
    pose proof (plain_serializable _ P) as Ser.
    cbn [json_plain distinct_keys] in P. destruct k; try discriminate.
    rewrite (dict_text _ _ _ _ Ser). eexists _, _. split; reflexivity.
Qed.

Lemma skip_ws_plain v level t :
  json_plain v = true ->
  skip_ws (fst (iterencode v level) +:+ t) = fst (iterencode v level) +:+ t.
Proof.
  intros P. destruct (plain_head v level P) as (c & r & -> & H).
  rewrite str_app_cons. now apply skip_ws_value.
Qed.

Lemma length_newline_indent n : 1 <= String.length (newline_indent n).
Proof. unfold newline_indent. rewrite str_length_app. simpl. lia. Qed.

Lemma length_plain v level :
  json_plain v = true -> 1 <= String.length (fst (iterencode v level)).
Proof.
  intros P. destruct (plain_head v level P) as (c & r & -> & _). simpl. lia.
Qed.

Ltac lengths_in H :=
  repeat first [rewrite str_length_app in H | progress cbn [String.length] in H].

Ltac lengths :=
  repeat first [rewrite str_length_app | progress cbn [String.length]].

Section Scan.
Variable level : nat.
Local Abbreviation enc := (fun v => iterencode v (S level)).
Local Abbreviation sep := (item_separator +:+ newline_indent (S level)).

Lemma scan_items_values (l : list pyval) :
  Forall scans_back l ->
  forall x f rest,
    scans_back x ->
    json_plain x = true ->
    forallb json_plain l = true ->
    String.length (fst (enc x) +:+ fst (encode_values enc sep l sep)
                   +:+ newline_indent level +:+ "]") <= f ->
    scan_items f (fst (enc x) +:+ fst (encode_values enc sep l sep)
                  +:+ newline_indent level +:+ String "]" rest)
    = Some (x :: l, rest).
Proof.
  induction 1 as [|x2 l Hx2 Hl IH]; intros x f rest Hx Px Pl Len.
  - cbn [encode_values yield fst] in *.
    change (EmptyString +:+ ?t) with t in *.
    rewrite !str_length_app in Len. change (String.length "]") with 1 in Len.
    pose proof (length_newline_indent level) as Ln.
    destruct f as [|f]; [lia|].
    assert (String.length (fst (iterencode x (S level))) <= f) as Lf by lia.
    rewrite scan_items_step.
    rewrite (Hx (S level) f _ Lf (delimits_newline_indent _ _)).
    rewrite skip_ws_newline_indent.
    change (skip_ws (String "]" rest)) with (String "]" rest). reflexivity.
  - cbn [forallb] in Pl. apply andb_prop in Pl as [Px2 Pl].
    rewrite (encode_values_text level x2 l sep (plain_serializable _ Px2)) in *.
    rewrite !str_app_assoc in *.
    rewrite !str_length_app in Len. change (String.length "]") with 1 in Len.
    change (String.length item_separator) with 1 in Len.
    destruct f as [|f]; [lia|].
    assert (String.length (fst (iterencode x (S level))) <= f) as Lf by lia.
    rewrite scan_items_step.
    rewrite (Hx (S level) f _ Lf); [|reflexivity].
    change (skip_ws (item_separator +:+ ?t)) with (String "," t).
    change (Ascii.eqb "," "]") with false. change (Ascii.eqb "," ",") with true.
    cbv iota. rewrite skip_ws_newline_indent.
    rewrite (skip_ws_plain _ _ _ Px2).
    rewrite IH; [reflexivity | assumption..|].
    rewrite !str_length_app. change (String.length "]") with 1.
    pose proof (length_newline_indent (S level)). lia.
Qed.

Lemma key_in_app k (a b : list (pyval * pyval)) :
  key_in k (a ++ b)%list = key_in k a || key_in k b.
Proof. unfold key_in. apply existsb_app. Qed.

Lemma dict_set_fresh (pairs : list (pyval * pyval)) k v v0 items :
  distinct_keys (pairs ++ (PyStr k, v0) :: items)%list = true ->
  dict_set k v pairs = (pairs ++ [(PyStr k, v)])%list.
Proof.
  induction pairs as [|[k' x'] pairs IH]; [reflexivity|].
  cbn [app distinct_keys]. destruct k'; try discriminate.
  intros H. apply andb_prop in H as [N D]. apply negb_true_iff in N.
  rewrite key_in_app in N. apply orb_false_iff in N as [_ N].
  cbn [key_in existsb fst] in N. apply orb_false_iff in N as [N _].
  cbn [dict_set]. rewrite String.eqb_sym, N. now rewrite (IH D).
Qed.

Lemma encoder_text k t :
  encoder k +:+ t = String dquote (escape k +:+ String dquote t).
Proof. unfold encoder, str1. rewrite str_app_cons, str_app_assoc. reflexivity. Qed.

Lemma scan_members_items (items : list (pyval * pyval)) :
  Forall (fun kv => scans_back (snd kv)) items ->
  forall k x pairs f rest,
    scans_back x ->
    json_plain x = true ->
    forallb (fun kv => json_plain (snd kv)) items = true ->
    distinct_keys (pairs ++ (PyStr k, x) :: items)%list = true ->
    String.length (escape k +:+ String dquote (key_separator +:+ fst (enc x)
                   +:+ fst (encode_items enc sep items false)
                   +:+ newline_indent level +:+ "}")) <= f ->
    scan_members f (escape k +:+ String dquote (key_separator +:+ fst (enc x)
                    +:+ fst (encode_items enc sep items false)
                    +:+ newline_indent level +:+ String "}" rest)) pairs
    = Some ((pairs ++ (PyStr k, x) :: items)%list, rest).
Proof.
  induction 1 as [|[k2 x2] items Hx2 Hl IH]; intros k x pairs f rest Hx Px Pl Dk Len.
  - cbn [encode_items yield fst] in *.
    change (EmptyString +:+ ?t) with t in *.
    unfold key_separator in Len. lengths_in Len.
    pose proof (length_newline_indent level) as Ln.
    pose proof (escape_length k) as Lk.
    destruct f as [|f]; [lia|].
    assert (String.length (fst (iterencode x (S level))) <= f) as Lf by lia.
    rewrite scan_members_step.
    rewrite scanstring_escape
      by (rewrite str_length_app; cbn [String.length]; lia).
    change (skip_ws (key_separator +:+ ?t)) with (String ":" (" " +:+ t)).
    change (Ascii.eqb ":" ":") with true. cbv iota.
    change (skip_ws (" " +:+ ?t)) with (skip_ws t).
    rewrite (skip_ws_plain _ _ _ Px).
    rewrite (Hx (S level) f _ Lf (delimits_newline_indent _ _)).
    rewrite skip_ws_newline_indent.
    change (skip_ws (String "}" rest)) with (String "}" rest).
    change (Ascii.eqb "}" "}") with true. cbv iota.
    now rewrite (dict_set_fresh _ _ _ _ _ Dk).
  - cbn [forallb snd] in Pl. apply andb_prop in Pl as [Px2 Pl].
    assert (exists s2, k2 = PyStr s2) as [s2 ->].
    { clear - Dk. induction pairs as [|[k' x'] pairs IHp].
      - cbn [app distinct_keys] in Dk. apply andb_prop in Dk as [_ Dk].
        cbn [distinct_keys] in Dk. destruct k2; try discriminate. eauto.
      - cbn [app distinct_keys] in Dk. destruct k'; try discriminate.
        apply andb_prop in Dk as [_ Dk]. auto. }
    rewrite (encode_items_text level s2 x2 items false (plain_serializable _ Px2)) in *.
    rewrite !str_app_assoc in *. rewrite encoder_text in *.
    pose proof Len as Len'. unfold key_separator in Len'.
    lengths_in Len'. change (String.length item_separator) with 1 in Len'.
    pose proof (escape_length k) as Lk.
    destruct f as [|f]; [lia|].
    assert (String.length (fst (iterencode x (S level))) <= f) as Lf by lia.
    rewrite scan_members_step.
    rewrite scanstring_escape
      by (rewrite str_length_app; cbn [String.length]; lia).
    change (skip_ws (key_separator +:+ ?t)) with (String ":" (" " +:+ t)).
    change (Ascii.eqb ":" ":") with true. cbv iota.
    change (skip_ws (" " +:+ ?t)) with (skip_ws t).
    rewrite (skip_ws_plain _ _ _ Px).
    rewrite (Hx (S level) f _ Lf); [|reflexivity].
    change (skip_ws (item_separator +:+ ?t)) with (String "," t).
    change (Ascii.eqb "," "}") with false. change (Ascii.eqb "," ",") with true.
    cbv iota. rewrite skip_ws_newline_indent.
    change (skip_ws (String dquote ?t)) with (String dquote t).
    change (Ascii.eqb dquote dquote) with true. cbv iota.
    rewrite (dict_set_fresh _ _ _ _ _ Dk).
    rewrite IH; [now rewrite <- app_assoc | assumption.. | |].
    + now rewrite <- app_assoc.
    + unfold key_separator. lengths.
      pose proof (length_newline_indent (S level)). lia.
Qed.

End Scan.

Lemma prefix_app (a rest : string) : String.prefix a (a +:+ rest) = true.
Proof.
  induction a as [|c a IH]; [now destruct rest|].
  rewrite str_app_cons. cbn [String.prefix].
  destruct (ascii_dec c c); [exact IH | congruence].
Qed.

Lemma scan_once_null f rest : scan_once (S f) ("null" +:+ rest) = Some (PyNone, rest).
Proof.
  change ("null" +:+ rest) with (String "n" ("ull" +:+ rest)). cbn [scan_once].
  change (Ascii.eqb "n" dquote) with false. change (Ascii.eqb "n" "{") with false.
  change (Ascii.eqb "n" "[") with false. cbv iota.
  unfold starts. change (String "n" ("ull" +:+ rest)) with ("null" +:+ rest).
  now rewrite prefix_app.
Qed.

Lemma scan_once_true f rest : scan_once (S f) ("true" +:+ rest) = Some (PyBool true, rest).
Proof.
  change ("true" +:+ rest) with (String "t" ("rue" +:+ rest)). cbn [scan_once].
  change (Ascii.eqb "t" dquote) with false. change (Ascii.eqb "t" "{") with false.
  change (Ascii.eqb "t" "[") with false. cbv iota.
  unfold starts.
  change (String.prefix "null" (String "t" ("rue" +:+ rest))) with false. cbv iota.
  change (String "t" ("rue" +:+ rest)) with ("true" +:+ rest).
  now rewrite prefix_app.
Qed.

Lemma scan_once_false f rest : scan_once (S f) ("false" +:+ rest) = Some (PyBool false, rest).
Proof.
  change ("false" +:+ rest) with (String "f" ("alse" +:+ rest)). cbn [scan_once].
  change (Ascii.eqb "f" dquote) with false. change (Ascii.eqb "f" "{") with false.
  change (Ascii.eqb "f" "[") with false. cbv iota.
  unfold starts.
  change (String.prefix "null" (String "f" ("alse" +:+ rest))) with false.
  change (String.prefix "true" (String "f" ("alse" +:+ rest))) with false. cbv iota.
  change (String "f" ("alse" +:+ rest)) with ("false" +:+ rest).
  now rewrite prefix_app.
Qed.

Lemma Forall_scans_back (l : list pyval) :
  Forall (fun v => json_plain v = true -> scans_back v) l ->
  forallb json_plain l = true -> Forall scans_back l.
Proof.
  induction 1 as [|x l Hx _ IH]; [constructor|].
  cbn [forallb]. intros H. apply andb_prop in H as [A B]. constructor; auto.
Qed.

Lemma Forall_scans_back_items (items : list (pyval * pyval)) :
  Forall (fun kv => json_plain (snd kv) = true -> scans_back (snd kv)) items ->
  forallb (fun kv => json_plain (snd kv)) items = true ->
  Forall (fun kv => scans_back (snd kv)) items.
Proof.
  induction 1 as [|x l Hx _ IH]; [constructor|].
  cbn [forallb]. intros H. apply andb_prop in H as [A B]. constructor; auto.
Qed.

(** Every plain value is scanned back from the text the encoder gives
    it, whatever follows that cannot belong to a number. *)
Lemma plain_scans_back v : json_plain v = true -> scans_back v.
Proof.
  revert v. apply (pyval_nested_ind (fun v => json_plain v = true -> scans_back v));
    try (intros; discriminate).
  - intros _ level [|f] rest L D; [cbn in L; lia | apply scan_once_null].
  - intros [|] _ level [|f] rest L D; try (cbn in L; lia);
      [apply scan_once_true | apply scan_once_false].
  - intros z _ level [|f] rest L D.
    + pose proof (length_plain (PyInt z) level eq_refl). lia.
    + now apply scan_once_int.
  - intros s _ level [|f] rest L D; [cbn in L; lia|].
    change (fst (iterencode (PyStr s) level)) with (encoder s).
    rewrite encoder_text, scan_once_string.
    rewrite scanstring_escape; [reflexivity|].
    rewrite str_length_app. pose proof (escape_length s). lia.
  - intros l IH P level f rest L D. cbn [json_plain] in P.
    destruct l as [|x l].
    + destruct f as [|f]; [cbn in L; lia | reflexivity].
    + pose proof (plain_serializable (PyList (x :: l)) P) as Ser.
      cbn [serializable] in Ser. rewrite (list_text _ _ _ Ser) in *.
      rewrite str_app_cons, !str_app_assoc.
      cbn [String.length] in L.
      destruct f as [|f]; [lia|]. apply le_S_n in L.
      rewrite str_length_app in L.
      rewrite scan_once_list, skip_ws_newline_indent.
      pose proof P as P'. cbn [forallb] in P'. apply andb_prop in P' as [Px Pl].
      destruct (plain_head x (S level) Px) as (c & t & E & Hc).
      rewrite (skip_ws_plain _ _ _ Px). rewrite E at 1. rewrite str_app_cons.
      destruct (starts_value_facts _ Hc) as (_ & Hb & _). rewrite Hb.
      rewrite <- str_app_cons, <- E.
      apply Forall_inv in IH as Hx. apply Forall_inv_tail in IH as Hl.
      change ("]" +:+ rest) with (String "]" rest).
      rewrite (scan_items_values level l (Forall_scans_back _ Hl Pl) x f rest (Hx Px) Px Pl);
        [reflexivity|].
      pose proof (length_newline_indent (S level)). lia.
  - intros items IH P level f rest L D. cbn [json_plain] in P.
    apply andb_prop in P as [Dk Pv].
    destruct items as [|[k x] items].
    + destruct f as [|f]; [cbn in L; lia | reflexivity].
    + assert (json_plain (PyDict ((k, x) :: items)) = true) as P
        by (cbn [json_plain]; now rewrite Dk, Pv).
      pose proof (plain_serializable _ P) as Ser.
      pose proof Dk as Dk'. cbn [distinct_keys] in Dk'. destruct k; try discriminate.
      rewrite (dict_text _ _ _ _ Ser) in *.
      rewrite str_app_cons, !str_app_assoc. rewrite encoder_text.
      rewrite ?str_app_assoc in L. rewrite encoder_text in L.
      cbn [String.length] in L.
      destruct f as [|f]; [lia|]. apply le_S_n in L.
      rewrite str_length_app in L.
      rewrite scan_once_dict, skip_ws_newline_indent.
      change (skip_ws (String dquote ?t)) with (String dquote t).
      change (Ascii.eqb dquote "}") with false.
      change (Ascii.eqb dquote dquote) with true. cbv iota.
      cbn [forallb snd] in Pv. apply andb_prop in Pv as [Px Pl].
      apply Forall_inv in IH as Hx. apply Forall_inv_tail in IH as Hl.
      cbn [snd] in Hx.
      change ("}" +:+ rest) with (String "}" rest).
      rewrite (scan_members_items level items (Forall_scans_back_items _ Hl Pl)
                 s x [] f rest (Hx Px) Px Pl Dk); [reflexivity|].
      cbn [String.length] in L |- *.
      pose proof (length_newline_indent (S level)). lia.
Qed.

(** *** json: the text of a plain value has no carriage return *)

Lemma uint_no_cr d : has_byte CR (NilEmpty.string_of_uint d) = false.
Proof. induction d; cbn [NilEmpty.string_of_uint has_byte]; [reflexivity | rewrite IHd ..]; reflexivity. Qed.

Lemma int_str_no_cr z : has_byte CR (int_str z) = false.
Proof.
  unfold int_str. destruct (Z.to_int z) as [d|d]; cbn [NilZero.string_of_int].
  - unfold NilZero.string_of_uint. destruct d; try apply uint_no_cr. reflexivity.
  - cbn [has_byte]. unfold NilZero.string_of_uint. destruct d; try apply uint_no_cr. reflexivity.
Qed.

Lemma newline_indent_no_cr n : has_byte CR (newline_indent n) = false.
Proof.
  unfold newline_indent. rewrite has_byte_app.
  induction n as [|n IH]; [reflexivity|].
  cbn [repeat_str]. rewrite has_byte_app. cbn [orb] in *.
  change (has_byte CR (str1 LF)) with false in *. cbn [orb] in *.
  now rewrite IH.
Qed.

Lemma encode_values_no_cr level (l : list pyval) :
  Forall (fun v => json_plain v = true -> no_cr v) l ->
  forallb json_plain l = true ->
  has_byte CR (fst (encode_values (fun v => iterencode v (S level))
                      (item_separator +:+ newline_indent (S level)) l
                      (item_separator +:+ newline_indent (S level)))) = false.
Proof.
  induction 1 as [|x l Hx _ IH]; [reflexivity|].
  cbn [forallb]. intros P. apply andb_prop in P as [Px Pl].
  rewrite (encode_values_text level x l _ (plain_serializable _ Px)).
  rewrite !has_byte_app, (Hx Px (S level)), (IH Pl), newline_indent_no_cr. reflexivity.
Qed.

Lemma distinct_keys_tail k x (items : list (pyval * pyval)) :
  distinct_keys ((k, x) :: items) = true ->
  exists s, k = PyStr s /\ distinct_keys items = true.
Proof.
  cbn [distinct_keys]. destruct k; try discriminate.
  intros H. apply andb_prop in H as [_ D]. eauto.
Qed.

Lemma encode_items_no_cr level (items : list (pyval * pyval)) :
  Forall (fun kv => json_plain (snd kv) = true -> no_cr (snd kv)) items ->
  distinct_keys items = true ->
  forallb (fun kv => json_plain (snd kv)) items = true ->
  has_byte CR (fst (encode_items (fun v => iterencode v (S level))
                      (item_separator +:+ newline_indent (S level)) items false)) = false.
Proof.
  induction 1 as [|[k x] items Hx _ IH]; [reflexivity|].
  intros D P. destruct (distinct_keys_tail _ _ _ D) as (s & -> & Dt).
  cbn [forallb snd] in P, Hx. apply andb_prop in P as [Px Pl].
  rewrite (encode_items_text level s x items false (plain_serializable _ Px)).
  rewrite !has_byte_app, (Hx Px (S level)), (IH Dt Pl), newline_indent_no_cr.
  unfold encoder. cbn [has_byte]. rewrite has_byte_app, escape_no_cr. reflexivity.
Qed.

Lemma plain_no_cr v : json_plain v = true -> no_cr v.
Proof.
  revert v. apply (pyval_nested_ind (fun v => json_plain v = true -> no_cr v));
    try (intros; discriminate).
  - intros _ level. reflexivity.
  - intros [|] _ level; reflexivity.
  - intros z _ level. apply int_str_no_cr.
  - intros s _ level. change (fst (iterencode (PyStr s) level)) with (encoder s).
    unfold encoder. cbn [has_byte]. rewrite has_byte_app, escape_no_cr. reflexivity.
  - intros l IH P level. destruct l as [|x l]; [reflexivity|].
    pose proof (plain_serializable _ P) as Ser. cbn [serializable] in Ser.
    rewrite (list_text _ _ _ Ser). cbn [json_plain forallb] in P.
    apply andb_prop in P as [Px Pl].
    apply Forall_inv in IH as Hx. apply Forall_inv_tail in IH as Hl.
    cbn [has_byte]. rewrite !has_byte_app, !newline_indent_no_cr, (Hx Px (S level)).
    now rewrite (encode_values_no_cr level l Hl Pl).
  - intros items IH P level. destruct items as [|[k x] items]; [reflexivity|].
    pose proof (plain_serializable _ P) as Ser.
    cbn [json_plain] in P. apply andb_prop in P as [D P].
    destruct (distinct_keys_tail _ _ _ D) as (s & -> & Dt).
    rewrite (dict_text _ _ _ _ Ser). cbn [forallb snd] in P.
    apply andb_prop in P as [Px Pl].
    apply Forall_inv in IH as Hx. apply Forall_inv_tail in IH as Hl. cbn [snd] in Hx.
    cbn [has_byte]. rewrite !has_byte_app, !newline_indent_no_cr, (Hx Px (S level)).
    rewrite (encode_items_no_cr level items Hl Dt Pl).
    unfold encoder. cbn [has_byte]. rewrite has_byte_app, escape_no_cr. reflexivity.
Qed.

(** *** json: plain values come back from their text and from the file *)

Lemma loads_plain v : json_plain v = true -> loads (fst (dump v)) = Return v.
Proof.
  intros P. unfold loads, dump.
  rewrite <- (str_app_empty_r (fst (iterencode v 0))).
  rewrite (skip_ws_plain _ _ _ P).
  rewrite (plain_scans_back v P 0 _ EmptyString); [reflexivity | | reflexivity].
  rewrite str_app_empty_r. lia.
Qed.

(** X19.  Every plain value comes back: [None], a [bool], an [int], a
    [str], a list of such values or a dictionary of such values under
    distinct [str] keys, nested in any way within the interpreter's
    limits, is returned by [WriteAsJson] then [Open] then [ReadAsJson]
    as it was written, whatever the handle held before, when the path
    can be opened for writing. *)
Theorem json_round_trip_plain (lib : stdlib) (v : pyval) (h : File) (w : world) :
  json_plain v = true ->
  within_limits v = true ->
  writable w (Path h) = true ->
  fst ((WriteAsJson v ;; Open lib ;; ReadAsJson) h w) = Return v.
Proof.
  intros P _ W. apply json_round_trip_via; [| | | exact W].
  - destruct v; try discriminate; reflexivity.
  - unfold dump. now rewrite iterencode_failure, (plain_serializable _ P).
  - rewrite universal_newlines_no_cr; [now apply loads_plain|].
    apply (plain_no_cr v P 0).
Qed.

Lemma json_round_trip_plain_witness :
  let v := PyDict [(PyStr "name", PyStr "fileio");
                   (PyStr "tags", PyList [PyStr "a\b"; PyNone; PyBool true; PyList []]);
                   (PyStr "size", PyInt (-1200));
                   (PyStr "meta", PyDict [(PyStr "", PyDict [])])] in
  fst ((WriteAsJson v ;; Open Sample.byte_count ;; ReadAsJson)
         Sample.fresh Sample.world0) = Return v.
Proof.
  apply (json_round_trip_plain Sample.byte_count _ Sample.fresh Sample.world0);
    vm_compute; reflexivity.
Defined.

(** *** os.path: a directory and a name joined and split *)

Lemma rfind_no_sep (b : string) : has_byte sep b = false -> rfind_sep_succ b = 0.
Proof.
  induction b as [|c b IH]; [reflexivity|].
  cbn [has_byte rfind_sep_succ]. intros H. apply orb_false_iff in H as [C B].
  now rewrite (IH B), C.
Qed.

Lemma rfind_app (a b : string) :
  rfind_sep_succ (a +:+ b)
  = match rfind_sep_succ b with
    | 0 => rfind_sep_succ a
    | S k => String.length a + S k
    end.
Proof.
  induction a as [|c a IH];
    [change (EmptyString +:+ b) with b; now destruct (rfind_sep_succ b)|].
  rewrite str_app_cons. cbn [rfind_sep_succ String.length]. rewrite IH.
  destruct (rfind_sep_succ b) as [|k]; [reflexivity|].
  rewrite Nat.add_succ_r. cbv iota. lia.
Qed.

Lemma rfind_endswith (d : string) : endswith_sep d = true -> rfind_sep_succ d = String.length d.
Proof.
  induction d as [|c d IH]; [discriminate|].
  cbn [endswith_sep rfind_sep_succ String.length]. destruct d as [|c' d].
  - intros ->. reflexivity.
  - intros E. rewrite (IH E). reflexivity.
Qed.

Lemma substring_prefix (a b : string) : substring 0 (String.length a) (a +:+ b) = a.
Proof.
  induction a as [|c a IH]; [now destruct b|].
  rewrite str_app_cons. cbn [String.length substring]. now rewrite IH.
Qed.

Lemma substring_all (b : string) : substring 0 (String.length b) b = b.
Proof. induction b as [|c b IH]; [reflexivity|]. cbn [String.length substring]. now rewrite IH. Qed.

Lemma substring_suffix (a b : string) :
  substring (String.length a) (String.length b) (a +:+ b) = b.
Proof.
  induction a as [|c a IH]; [apply substring_all|].
  rewrite str_app_cons. cbn [String.length substring]. exact IH.
Qed.

(** Splitting after a head that ends in the last slash of the path. *)
Lemma split_at (head tail : string) :
  rfind_sep_succ (head +:+ tail) = String.length head ->
  split (head +:+ tail)
  = (if negb (is_empty head) && negb (all_sep head) then rstrip_sep head else head, tail).
Proof.
  intros E. unfold split. rewrite E, substring_prefix.
  rewrite str_length_app, Nat.add_comm, Nat.add_sub, substring_suffix. reflexivity.
Qed.

Lemma all_sep_snoc (d : string) : all_sep (d +:+ String sep EmptyString) = all_sep d.
Proof.
  induction d as [|c d IH]; [reflexivity|].
  rewrite str_app_cons. cbn [all_sep]. now rewrite IH.
Qed.

Lemma rstrip_sep_snoc (d : string) : rstrip_sep (d +:+ String sep EmptyString) = rstrip_sep d.
Proof.
  induction d as [|c d IH]; [reflexivity|].
  rewrite str_app_cons. cbn [rstrip_sep]. now rewrite IH.
Qed.

Lemma all_sep_endswith (d : string) :
  all_sep d = true -> d = EmptyString \/ endswith_sep d = true.
Proof.
  induction d as [|c d IH]; [now left|].
  cbn [all_sep]. intros H. apply andb_prop in H as [C A]. right.
  destruct d as [|c' d]; [exact C|].
  change (endswith_sep (String c (String c' d))) with (endswith_sep (String c' d)).
  now destruct (IH A).
Qed.

(** [os.path.split(os.path.join(d, name))] for a name without a slash. *)
Lemma split_join (d name : string) :
  has_byte sep name = false ->
  split (join d [name]) = (if all_sep d then d else rstrip_sep d, name).
Proof.
  intros N. pose proof (rfind_no_sep _ N) as R.
  assert (startswith_sep name = false) as St.
  { destruct name as [|c n]; [reflexivity|]. cbn [has_byte] in N.
    apply orb_false_iff in N as [C _]. exact C. }
  unfold join. cbn [join_from]. rewrite St.
  destruct d as [|c d].
  - cbn [is_empty orb]. change (EmptyString +:+ name) with name.
    pose proof (split_at EmptyString name) as S.
    change (EmptyString +:+ name) with name in S.
    rewrite S; [reflexivity | exact R].
  - cbn [is_empty orb]. set (p := String c d).
    destruct (endswith_sep p) eqn:En.
    + rewrite split_at.
      * unfold p at 1. cbn [is_empty negb andb]. now destruct (all_sep p).
      * rewrite rfind_app, R. now apply rfind_endswith.
    + replace (p +:+ String sep name) with ((p +:+ String sep EmptyString) +:+ name)
        by (now rewrite str_app_assoc).
      rewrite split_at.
      * rewrite all_sep_snoc, rstrip_sep_snoc.
        assert (all_sep p = false) as ->.
        { destruct (all_sep p) eqn:A; [|reflexivity].
          destruct (all_sep_endswith _ A) as [? | E]; [discriminate | congruence]. }
        unfold p at 1. rewrite str_app_cons. reflexivity.
      * rewrite rfind_app, R, rfind_app. cbn [rfind_sep_succ].
        change (Ascii.eqb sep sep) with true. cbv iota.
        rewrite str_length_app. reflexivity.
Qed.

Lemma rstrip_sep_keeps (d : string) : endswith_sep d = false -> rstrip_sep d = d.
Proof.
  induction d as [|c d IH]; [reflexivity|].
  cbn [endswith_sep rstrip_sep]. destruct d as [|c' d].
  - intros ->. reflexivity.
  - intros E. rewrite (IH E). reflexivity.
Qed.

(** X20.  A handle made from a directory and a file name gives them
    back: when the name has no slash in it, [GetBasename] of
    [File(d, name)] is the name and [GetDirname] is [d] without the
    slashes at its end (all of [d] when it is made of slashes only, or
    does not end in one), wherever construction succeeds. *)
Theorem handle_gives_back_directory_and_name (d name : string) (w w' : world) (self : File) :
  has_byte sep name = false ->
  new [PyStr d; PyStr name] w = (Return self, w') ->
  fst (GetBasename self w') = Return name
  /\ fst (GetDirname self w') = Return (if all_sep d then d else rstrip_sep d)
  /\ (endswith_sep d = false -> fst (GetDirname self w') = Return d).
Proof.
  intros N C.
  assert (Path self = join d [name]) as P.
  { rewrite (new_eq [PyStr d; PyStr name] (join d [name]) w eq_refl) in C.
    destruct (path_exists w _); [destruct (open_read w _)|]; now inversion C. }
  assert (fst (GetDirname self w') = Return (if all_sep d then d else rstrip_sep d)) as D.
  { unfold GetDirname, bind, get_path, ret. cbn [fst]. unfold dirname.
    now rewrite P, (split_join _ _ N). }
  split; [|split; [exact D|]].
  - unfold GetBasename, bind, get_path, ret. cbn [fst]. unfold basename.
    now rewrite P, (split_join _ _ N).
  - intros E. rewrite D, (rstrip_sep_keeps _ E). now destruct (all_sep d).
Qed.

Lemma handle_gives_back_directory_and_name_witness :
  exists self w',
    new [PyStr "data//"; PyStr "notes.txt"] Sample.world0 = (Return self, w')
    /\ fst (GetBasename self w') = Return "notes.txt"
    /\ fst (GetDirname self w') = Return "data".
Proof.
  eexists _, _. split; [vm_compute; reflexivity|].
  destruct (handle_gives_back_directory_and_name "data//" "notes.txt" Sample.world0 _ _
              eq_refl eq_refl) as (B & D & _).
  split; [exact B | exact D].
Defined.

(** *** csv: cells that are not text come back as text *)







(** *** WriteAsCsv: what is written is CSV *)







